(** * Purbavash weather dashboard: a model of [src/js/app.js]

    The script is event-driven: it registers listeners on the page, and the
    listeners start deferred work (a debounce timer, HTTP requests) whose
    callbacks later write to the page.  The model has

    - the response payloads the callbacks destructure ([CurrentWeather],
      [Forecast], [AirPollution], [Location]);
    - the part of the page the script writes to ([State]): class flags,
      style properties, and the children of the four weather regions and of
      the search panel;
    - a state-and-exception monad [Eff] for the listener and callback bodies
      (a failed destructuring raises a [TypeError] and leaves the writes made
      so far in place);
    - an event loop ([step], [run]): pending timers, pending requests, and a
      log of every request issued and every response delivered.

    The tab switcher (lines 120-145) has a state of its own and is modelled
    apart, in [Tabs].  The mouse-follower (lines 12-28) is not modelled; it
    touches none of the state described here. *)

From Stdlib Require Import ZArith Lia.
From stdpp Require Import base tactics option list strings.

Local Open Scope string_scope.
Local Open Scope list_scope.
Local Open Scope Z_scope.

(** ** Response payloads *)

(** A JSON number with a fractional part, kept as the decimal literal
    [d_mant * 10 ^ d_exp] of the response body.  The script only hands these to
    formatting helpers. *)
Record decimal := Decimal { d_mant : Z; d_exp : Z }.

(** One element of a [weather] array. *)
Record WeatherDesc := { description : string; icon : string }.

(** Body of the current-weather endpoint, the fields read at lines 178-186. *)
Record CurrentWeather := {
  cw_weather : list WeatherDesc;
  cw_dt : Z;
  cw_sunrise : Z;
  cw_sunset : Z;
  cw_temp : decimal;
  cw_feels_like : decimal;
  cw_pressure : Z;
  cw_humidity : Z;
  cw_visibility : Z;
  cw_timezone : Z
}.

(** One element of the forecast [list], the fields read at lines 243-249 and
    394-399. *)
Record ForecastEntry := {
  fe_dt : Z;
  fe_temp : decimal;
  fe_temp_max : decimal;
  fe_weather : list WeatherDesc;
  fe_wind_deg : Z;
  fe_wind_speed : decimal;
  fe_dt_txt : string
}.

(** Body of the forecast endpoint (lines 227-230). *)
Record Forecast := { fc_list : list ForecastEntry; fc_timezone : Z }.

(** One element of the air-pollution [list] (lines 291-296). *)
Record AirEntry := {
  ae_aqi : Z;
  ae_no2 : decimal;
  ae_o3 : decimal;
  ae_so2 : decimal;
  ae_pm2_5 : decimal
}.

Record AirPollution := { ap_list : list AirEntry }.

(** One geocoding match (lines 78 and 218). *)
Record Location := {
  loc_name : string;
  loc_lat : decimal;
  loc_lon : decimal;
  loc_country : string;
  loc_state : option string
}.

Inductive response :=
| RCurrentWeather (cw : CurrentWeather)
| RForecast (f : Forecast)
| RAirPollution (a : AirPollution)
| RLocations (ls : list Location).

(** ** Rendered fragments

    Each record is one instance of a markup template of the script; a field is
    one hole of the template.  Holes filled through a helper of [module.js]
    or through [parseInt] keep the helper's arguments. *)

(** The "Now" card (lines 187-216). *)
Record NowCard := {
  now_temp : decimal;            (* parseInt(temp) *)
  now_img_src : string;
  now_img_alt : string;
  now_body : string;
  now_date : Z * Z;              (* module.getDate(dateUnix, timezone) *)
  now_location : option (string * string)  (* [data-location], name and country *)
}.

(** One [li.slider-item] of the hourly list (lines 253-283). *)
Record HourlyItem := {
  hr_time : Z * Z;               (* module.getHours(dateTimeUnix, timezone) *)
  hr_img_src : string;
  hr_img_title : string;
  hr_temp : decimal;             (* parseInt(temp) *)
  hr_rotate : Z;                 (* windDirection - 180 *)
  hr_wind_speed : decimal        (* parseInt(module.mps_to_kmh(windSpeed)) *)
}.

(** One [li.card-item] of the 5-day list (lines 404-424). *)
Record DailyItem := {
  dy_img_src : string;
  dy_img_title : string;
  dy_temp_max : decimal;         (* parseInt(temp_max) *)
  dy_date : string               (* new Date(dt_txt) *)
}.

(** The highlights card (lines 298-379). *)
Record HighlightCard := {
  hl_humidity : Z;
  hl_pressure : Z;
  hl_feels_like : decimal;       (* parseInt(feels_like) *)
  hl_visibility : Z;             (* visibility / 1000 *)
  hl_sunrise : Z * Z;            (* module.getTime(sunriseUnixUTC, timezone) *)
  hl_sunset : Z * Z;             (* module.getTime(sunsetUnixUTC, timezone) *)
  hl_aqi : Z;
  hl_pm2_5 : decimal;
  hl_so2 : decimal;
  hl_no2 : decimal;
  hl_o3 : decimal
}.

(** One [li.view-item] of the search result list (lines 79-88). *)
Record SearchItem := {
  si_title : string;
  si_subtitle : string * string; (* state || "", country *)
  si_href : decimal * decimal    (* #/weather?lat=..&lon=.. *)
}.

(** ** Requests and closures *)

(** Modelled from the spec: the endpoint URL builder [url] of [api.js] is not
    among the sources; the spec lists one endpoint per constructor (current
    weather, forecast, air pollution, reverse geocoding, geocoding search),
    keyed by coordinates or by the search string. *)
Inductive endpoint :=
| url_currentWeather (lat lon : decimal)
| url_forecast (lat lon : decimal)
| url_airPollution (lat lon : decimal)
| url_reverseGeo (lat lon : decimal)
| url_geo (query : string).

(** What the forecast callback and, nested in it, the air-pollution callback
    capture from the current-weather response (lines 181-183). *)
Record Captured := {
  cap_sunrise : Z;
  cap_sunset : Z;
  cap_feels_like : decimal;
  cap_pressure : Z;
  cap_humidity : Z;
  cap_visibility : Z
}.

(** The five callbacks handed to [fetchData], as closures over the variables
    they use.  [run] is a ghost label: the number of the [updateWeather] call
    the closure descends from. *)
Inductive callback :=
| onGeo                                                   (* line 70 *)
| onCurrentWeather (run : nat) (lat lon : decimal)        (* line 177 *)
| onReverseGeo (card : nat)                               (* line 218 *)
| onForecast (run : nat) (lat lon : decimal) (c : Captured)  (* line 226 *)
| onAirPollution (run : nat) (c : Captured) (timezone : Z).  (* line 290 *)

Record Request := { req_url : endpoint; req_cb : callback }.

Inductive LogEntry :=
| Issued (r : Request)
| Delivered (r : Request).

(** ** Page and event-loop state *)

(** The weather view: [data-loading], [data-container],
    [data-error-content], [data-current-location-btn], and the children of
    the four regions.  [cards] holds every "Now" card created so far, by
    element identity: the reverse-geocoding callback keeps a reference to
    its card whether or not the card is still on the page. *)
#[projections(primitive)] Record Page := {
  loadingActive : bool;
  containerOverflowY : string;
  containerFadeIn : bool;
  errorDisplay : string;
  currentLocationDisabled : bool;
  cards : list NowCard;
  currentWeatherSection : list nat;
  hourlySection : list (list HourlyItem);
  highlightSection : list HighlightCard;
  forecastSection : list (list DailyItem)
}.

(** The search view: [data-search-view], [data-search-field],
    [data-search-result]. *)
#[projections(primitive)] Record SearchView := {
  searchViewActive : bool;
  searchFieldValue : string;
  searchFieldSearching : bool;
  searchResultActive : bool;
  searchResultLists : list (list SearchItem)
}.

(** The event loop: clock in ms, armed timers as (id, deadline), requests in
    flight, the next run label, and the log of requests issued and responses
    delivered (oldest first). *)
#[projections(primitive)] Record Loop := {
  clock : nat;
  timers : list (nat * nat);
  nextTimer : nat;
  pending : list Request;
  nextRun : nat;
  log : list LogEntry
}.

#[projections(primitive)] Record State := {
  page : Page;
  search : SearchView;
  searchTimeout : option nat;     (* let searchTimeout, line 55 *)
  locationHash : string;          (* window.location.hash *)
  loop : Loop
}.

(** Field updates. *)

Definition set_loadingActive (v : bool) (p : Page) : Page :=
  {| loadingActive := v;
     containerOverflowY := containerOverflowY p;
     containerFadeIn := containerFadeIn p;
     errorDisplay := errorDisplay p;
     currentLocationDisabled := currentLocationDisabled p;
     cards := cards p;
     currentWeatherSection := currentWeatherSection p;
     hourlySection := hourlySection p;
     highlightSection := highlightSection p;
     forecastSection := forecastSection p |}.

Definition set_containerOverflowY (v : string) (p : Page) : Page :=
  {| loadingActive := loadingActive p;
     containerOverflowY := v;
     containerFadeIn := containerFadeIn p;
     errorDisplay := errorDisplay p;
     currentLocationDisabled := currentLocationDisabled p;
     cards := cards p;
     currentWeatherSection := currentWeatherSection p;
     hourlySection := hourlySection p;
     highlightSection := highlightSection p;
     forecastSection := forecastSection p |}.

Definition set_containerFadeIn (v : bool) (p : Page) : Page :=
  {| loadingActive := loadingActive p;
     containerOverflowY := containerOverflowY p;
     containerFadeIn := v;
     errorDisplay := errorDisplay p;
     currentLocationDisabled := currentLocationDisabled p;
     cards := cards p;
     currentWeatherSection := currentWeatherSection p;
     hourlySection := hourlySection p;
     highlightSection := highlightSection p;
     forecastSection := forecastSection p |}.

Definition set_errorDisplay (v : string) (p : Page) : Page :=
  {| loadingActive := loadingActive p;
     containerOverflowY := containerOverflowY p;
     containerFadeIn := containerFadeIn p;
     errorDisplay := v;
     currentLocationDisabled := currentLocationDisabled p;
     cards := cards p;
     currentWeatherSection := currentWeatherSection p;
     hourlySection := hourlySection p;
     highlightSection := highlightSection p;
     forecastSection := forecastSection p |}.

Definition set_currentLocationDisabled (v : bool) (p : Page) : Page :=
  {| loadingActive := loadingActive p;
     containerOverflowY := containerOverflowY p;
     containerFadeIn := containerFadeIn p;
     errorDisplay := errorDisplay p;
     currentLocationDisabled := v;
     cards := cards p;
     currentWeatherSection := currentWeatherSection p;
     hourlySection := hourlySection p;
     highlightSection := highlightSection p;
     forecastSection := forecastSection p |}.

Definition set_cards (v : list NowCard) (p : Page) : Page :=
  {| loadingActive := loadingActive p;
     containerOverflowY := containerOverflowY p;
     containerFadeIn := containerFadeIn p;
     errorDisplay := errorDisplay p;
     currentLocationDisabled := currentLocationDisabled p;
     cards := v;
     currentWeatherSection := currentWeatherSection p;
     hourlySection := hourlySection p;
     highlightSection := highlightSection p;
     forecastSection := forecastSection p |}.

Definition set_currentWeatherSection (v : list nat) (p : Page) : Page :=
  {| loadingActive := loadingActive p;
     containerOverflowY := containerOverflowY p;
     containerFadeIn := containerFadeIn p;
     errorDisplay := errorDisplay p;
     currentLocationDisabled := currentLocationDisabled p;
     cards := cards p;
     currentWeatherSection := v;
     hourlySection := hourlySection p;
     highlightSection := highlightSection p;
     forecastSection := forecastSection p |}.

Definition set_hourlySection (v : list (list HourlyItem)) (p : Page) : Page :=
  {| loadingActive := loadingActive p;
     containerOverflowY := containerOverflowY p;
     containerFadeIn := containerFadeIn p;
     errorDisplay := errorDisplay p;
     currentLocationDisabled := currentLocationDisabled p;
     cards := cards p;
     currentWeatherSection := currentWeatherSection p;
     hourlySection := v;
     highlightSection := highlightSection p;
     forecastSection := forecastSection p |}.

Definition set_highlightSection (v : list HighlightCard) (p : Page) : Page :=
  {| loadingActive := loadingActive p;
     containerOverflowY := containerOverflowY p;
     containerFadeIn := containerFadeIn p;
     errorDisplay := errorDisplay p;
     currentLocationDisabled := currentLocationDisabled p;
     cards := cards p;
     currentWeatherSection := currentWeatherSection p;
     hourlySection := hourlySection p;
     highlightSection := v;
     forecastSection := forecastSection p |}.

Definition set_forecastSection (v : list (list DailyItem)) (p : Page) : Page :=
  {| loadingActive := loadingActive p;
     containerOverflowY := containerOverflowY p;
     containerFadeIn := containerFadeIn p;
     errorDisplay := errorDisplay p;
     currentLocationDisabled := currentLocationDisabled p;
     cards := cards p;
     currentWeatherSection := currentWeatherSection p;
     hourlySection := hourlySection p;
     highlightSection := highlightSection p;
     forecastSection := v |}.

Definition set_searchViewActive (v : bool) (s : SearchView) : SearchView :=
  {| searchViewActive := v;
     searchFieldValue := searchFieldValue s;
     searchFieldSearching := searchFieldSearching s;
     searchResultActive := searchResultActive s;
     searchResultLists := searchResultLists s |}.

Definition set_searchFieldValue (v : string) (s : SearchView) : SearchView :=
  {| searchViewActive := searchViewActive s;
     searchFieldValue := v;
     searchFieldSearching := searchFieldSearching s;
     searchResultActive := searchResultActive s;
     searchResultLists := searchResultLists s |}.

Definition set_searchFieldSearching (v : bool) (s : SearchView) : SearchView :=
  {| searchViewActive := searchViewActive s;
     searchFieldValue := searchFieldValue s;
     searchFieldSearching := v;
     searchResultActive := searchResultActive s;
     searchResultLists := searchResultLists s |}.

Definition set_searchResultActive (v : bool) (s : SearchView) : SearchView :=
  {| searchViewActive := searchViewActive s;
     searchFieldValue := searchFieldValue s;
     searchFieldSearching := searchFieldSearching s;
     searchResultActive := v;
     searchResultLists := searchResultLists s |}.

Definition set_searchResultLists (v : list (list SearchItem)) (s : SearchView) : SearchView :=
  {| searchViewActive := searchViewActive s;
     searchFieldValue := searchFieldValue s;
     searchFieldSearching := searchFieldSearching s;
     searchResultActive := searchResultActive s;
     searchResultLists := v |}.

Definition set_clock (v : nat) (l : Loop) : Loop :=
  {| clock := v;
     timers := timers l;
     nextTimer := nextTimer l;
     pending := pending l;
     nextRun := nextRun l;
     log := log l |}.

Definition set_timers (v : list (nat * nat)) (l : Loop) : Loop :=
  {| clock := clock l;
     timers := v;
     nextTimer := nextTimer l;
     pending := pending l;
     nextRun := nextRun l;
     log := log l |}.

Definition set_nextTimer (v : nat) (l : Loop) : Loop :=
  {| clock := clock l;
     timers := timers l;
     nextTimer := v;
     pending := pending l;
     nextRun := nextRun l;
     log := log l |}.

Definition set_pending (v : list Request) (l : Loop) : Loop :=
  {| clock := clock l;
     timers := timers l;
     nextTimer := nextTimer l;
     pending := v;
     nextRun := nextRun l;
     log := log l |}.

Definition set_nextRun (v : nat) (l : Loop) : Loop :=
  {| clock := clock l;
     timers := timers l;
     nextTimer := nextTimer l;
     pending := pending l;
     nextRun := v;
     log := log l |}.

Definition set_log (v : list LogEntry) (l : Loop) : Loop :=
  {| clock := clock l;
     timers := timers l;
     nextTimer := nextTimer l;
     pending := pending l;
     nextRun := nextRun l;
     log := v |}.

Definition set_page (v : Page) (st : State) : State :=
  {| page := v;
     search := search st;
     searchTimeout := searchTimeout st;
     locationHash := locationHash st;
     loop := loop st |}.

Definition set_search (v : SearchView) (st : State) : State :=
  {| page := page st;
     search := v;
     searchTimeout := searchTimeout st;
     locationHash := locationHash st;
     loop := loop st |}.

Definition set_searchTimeout (v : option nat) (st : State) : State :=
  {| page := page st;
     search := search st;
     searchTimeout := v;
     locationHash := locationHash st;
     loop := loop st |}.

Definition set_locationHash (v : string) (st : State) : State :=
  {| page := page st;
     search := search st;
     searchTimeout := searchTimeout st;
     locationHash := v;
     loop := loop st |}.

Definition set_loop (v : Loop) (st : State) : State :=
  {| page := page st;
     search := search st;
     searchTimeout := searchTimeout st;
     locationHash := locationHash st;
     loop := v |}.

(** ** Listener bodies as effectful computations *)

(** How a listener or callback body ends: normally, or with an uncaught
    exception.  Either way the writes it made stay. *)
Inductive completion (A : Type) :=
| Normal (a : A)
| Throw.
Global Arguments Normal {A} a.
Global Arguments Throw {A}.

Definition Eff (A : Type) : Type := State -> completion A * State.

Definition Eff_ret {A} (a : A) : Eff A := fun st => (Normal a, st).

Definition Eff_bind {A B} (k : A -> Eff B) (m : Eff A) : Eff B :=
  fun st =>
    match m st with
    | (Normal a, st') => k a st'
    | (Throw, st') => (Throw, st')
    end.

Global Instance Eff_mret : MRet Eff := @Eff_ret.
Global Instance Eff_mbind : MBind Eff := @Eff_bind.

Definition throw {A} : Eff A := fun st => (Throw, st).
Definition gets {A} (f : State -> A) : Eff A := fun st => (Normal (f st), st).
Definition modify (f : State -> State) : Eff unit := fun st => (Normal tt, f st).

Definition modifyPage (f : Page -> Page) : Eff unit :=
  modify (fun st => set_page (f (page st)) st).
Definition modifySearch (f : SearchView -> SearchView) : Eff unit :=
  modify (fun st => set_search (f (search st)) st).
Definition modifyLoop (f : Loop -> Loop) : Eff unit :=
  modify (fun st => set_loop (f (loop st)) st).

(** The state a computation leaves, and whether it ended normally. *)
Definition exec {A} (m : Eff A) (st : State) : State := snd (m st).
Definition returns {A} (m : Eff A) (st : State) : bool :=
  match fst (m st) with Normal _ => true | Throw => false end.

(** [const [x] = xs]: destructuring the first element of an array into an
    object pattern throws when the array is empty. *)
Definition first {A} (xs : list A) : Eff A :=
  match xs with
  | x :: _ => mret x
  | [] => throw
  end.

(** [for (const x of xs) body]. *)
Fixpoint forOf {A} (xs : list A) (body : A -> Eff unit) : Eff unit :=
  match xs with
  | [] => mret tt
  | x :: rest => body x;; forOf rest body
  end.

(** ** Browser and helper primitives *)

(** Modelled from the spec: [fetchData] of [api.js] is not among the sources;
    the spec has it issue a GET for the URL and invoke the callback with the
    parsed body once the response arrives (a deferred completion).  Issuing
    puts the request in flight and returns. *)
Definition fetchData (u : endpoint) (cb : callback) : Eff unit :=
  let r := {| req_url := u; req_cb := cb |} in
  modifyLoop (fun l => set_log (log l ++ [Issued r]) (set_pending (pending l ++ [r]) l)).

(** [setTimeout(cb, delay)]: arms a timer and returns its id.  The only timer
    callback modelled is the one of the search listener (line 69). *)
Definition setTimeout (delay : nat) : Eff nat :=
  id ← gets (fun st => nextTimer (loop st));
  modifyLoop (fun l =>
    set_nextTimer (S id) (set_timers (timers l ++ [(id, (clock l + delay)%nat)]) l));;
  mret id.

(** [clearTimeout(id)]: disarms the timer; nothing happens for [null]. *)
Definition clearTimeout (id : option nat) : Eff unit :=
  match id with
  | None => mret tt
  | Some i =>
      modifyLoop (fun l =>
        set_timers (filter (fun t => negb (Nat.eqb (fst t) i)) (timers l)) l)
  end.

(** Modelled from the spec: [module.aqiText] of [module.js] is not among the
    sources; the spec describes it as the lookup table from the air-quality
    index, which ranges over 1-5, to its descriptive text. *)
Definition aqiText_keys : list Z := [1; 2; 3; 4; 5].

(** ** Search (lines 43-103) *)

Definition searchTimeoutDuration : nat := 500.

(** Line 46. *)
Definition toggleSearch : Eff unit :=
  modifySearch (fun s => set_searchViewActive (negb (searchViewActive s)) s).

(** Click listener of a search result link (lines 96-99). *)
Definition searchItemClick : Eff unit :=
  toggleSearch;;
  modifySearch (set_searchResultActive false).

(** [searchResult.querySelector("[data-search-list]").appendChild(item)]:
    the first list of the panel; [null.appendChild] throws. *)
Definition appendSearchItem (item : SearchItem) : Eff unit :=
  lists ← gets (fun st => searchResultLists (search st));
  match lists with
  | ul :: rest => modifySearch (set_searchResultLists ((ul ++ [item]) :: rest))
  | [] => throw
  end.

(** Callback of the geocoding fetch (lines 70-100). *)
Definition geoCallback (r : response) : Eff unit :=
  modifySearch (set_searchFieldSearching false);;
  modifySearch (set_searchResultActive true);;
  modifySearch (set_searchResultLists [[]]);;
  match r with
  | RLocations locations =>
      forOf locations (fun l =>
        appendSearchItem
          {| si_title := loc_name l;
             si_subtitle := (default "" (loc_state l), loc_country l);
             si_href := (loc_lat l, loc_lon l) |})
  | _ => throw
  end.

(** Timer callback (lines 69-101): the URL is built from the field's value
    at the time the timer fires. *)
Definition searchTimerCallback : Eff unit :=
  value ← gets (fun st => searchFieldValue (search st));
  fetchData (url_geo value) onGeo.

(** The [input] listener of the search field (lines 58-103).  Line 59 is
    [searchTimeout ?? clearTimeout(searchTimeout)]: the right operand of [??]
    is evaluated only when the left one is [null] or [undefined]. *)
Definition searchInputListener : Eff unit :=
  t ← gets (fun st => searchTimeout st);
  match t with
  | None => clearTimeout t
  | Some _ => mret tt
  end;;
  value ← gets (fun st => searchFieldValue (search st));
  (if String.eqb value "" then
     modifySearch (set_searchResultActive false);;
     modifySearch (set_searchResultLists []);;
     modifySearch (set_searchFieldSearching false)
   else
     modifySearch (set_searchFieldSearching true));;
  value ← gets (fun st => searchFieldValue (search st));
  if String.eqb value "" then mret tt
  else
    id ← setTimeout searchTimeoutDuration;
    modify (set_searchTimeout (Some id)).

(** ** Weather view (lines 105-438) *)

Definition iconPath (weatherIcon : string) : string :=
  ("./public/images/weather_icons/" ++ weatherIcon ++ ".png")%string.

(** [document.createElement("div")] for a "Now" card: a new element. *)
Definition createCard (c : NowCard) : Eff nat :=
  id ← gets (fun st => length (cards (page st)));
  modifyPage (fun p => set_cards (cards p ++ [c]) p);;
  mret id.

(** [hourlySection.querySelector("[data-hourly]").appendChild(li)]: the
    first list of the region; [null.appendChild] throws. *)
Definition appendHourly (li : HourlyItem) : Eff unit :=
  lists ← gets (fun st => hourlySection (page st));
  match lists with
  | ul :: rest => modifyPage (set_hourlySection ((ul ++ [li]) :: rest))
  | [] => throw
  end.

(** [forecastSection.querySelector("[data-forecast-list]").appendChild(li)]. *)
Definition appendDaily (li : DailyItem) : Eff unit :=
  lists ← gets (fun st => forecastSection (page st));
  match lists with
  | ul :: rest => modifyPage (set_forecastSection ((ul ++ [li]) :: rest))
  | [] => throw
  end.

(** The loop of lines 241-285, from [index] on. *)
Fixpoint hourlyLoop (timezone : Z) (index : nat) (entries : list ForecastEntry)
    : Eff unit :=
  match entries with
  | [] => mret tt
  | data :: rest =>
      if (7 <? index)%nat then mret tt
      else
        w ← first (fe_weather data);
        let weatherIcon :=
          if String.eqb (description w) "broken clouds" then "04.0d" else icon w in
        appendHourly
          {| hr_time := (fe_dt data, timezone);
             hr_img_src := iconPath weatherIcon;
             hr_img_title := description w;
             hr_temp := fe_temp data;
             hr_rotate := fe_wind_deg data - 180;
             hr_wind_speed := fe_wind_speed data |};;
        hourlyLoop timezone (S index) rest
  end.

(** The loop of lines 393-426, from [i] on: [for (...; i < len; i += 8)].
    [fuel] bounds the number of iterations; [dailyLoop_fuel] shows that
    [len] is enough. *)
Fixpoint dailyLoop (fuel : nat) (forecastList : list ForecastEntry) (len i : nat)
    : Eff unit :=
  match fuel with
  | O => mret tt
  | S fuel' =>
      if (i <? len)%nat then
        match forecastList !! i with
        | None => throw
        | Some e =>
            w ← first (fe_weather e);
            let weatherIcon :=
              if String.eqb (description w) "broken clouds" then "04.0d" else icon w in
            appendDaily
              {| dy_img_src := iconPath weatherIcon;
                 dy_img_title := description w;
                 dy_temp_max := fe_temp_max e;
                 dy_date := fe_dt_txt e |};;
            dailyLoop fuel' forecastList len (i + 8)%nat
        end
      else mret tt
  end.

(** Callback of the air-pollution fetch (lines 290-381).  [timezone] is the
    forecast's [city.timezone], which shadows the current-weather one. *)
Definition airPollutionCallback (c : Captured) (timezone : Z) (r : response)
    : Eff unit :=
  match r with
  | RAirPollution airPollution =>
      e ← first (ap_list airPollution);
      if bool_decide (ae_aqi e ∈ aqiText_keys) then
        modifyPage (fun p =>
          set_highlightSection
            (highlightSection p ++
               [{| hl_humidity := cap_humidity c;
                   hl_pressure := cap_pressure c;
                   hl_feels_like := cap_feels_like c;
                   hl_visibility := cap_visibility c;
                   hl_sunrise := (cap_sunrise c, timezone);
                   hl_sunset := (cap_sunset c, timezone);
                   hl_aqi := ae_aqi e;
                   hl_pm2_5 := ae_pm2_5 e;
                   hl_so2 := ae_so2 e;
                   hl_no2 := ae_no2 e;
                   hl_o3 := ae_o3 e |}]) p)
      else throw
  | _ => throw
  end.

(** Callback of the forecast fetch (lines 226-431). *)
Definition forecastCallback (run : nat) (lat lon : decimal) (c : Captured)
    (r : response) : Eff unit :=
  match r with
  | RForecast forecast =>
      let forecastList := fc_list forecast in
      let timezone := fc_timezone forecast in
      modifyPage (set_hourlySection [[]]);;
      hourlyLoop timezone 0 forecastList;;
      fetchData (url_airPollution lat lon) (onAirPollution run c timezone);;
      modifyPage (set_forecastSection [[]]);;
      dailyLoop (length forecastList) forecastList (length forecastList) 7;;
      modifyPage (set_loadingActive false);;
      modifyPage (set_containerOverflowY "overlay");;
      modifyPage (set_containerFadeIn true)
  | _ => throw
  end.

(** Callback of the reverse-geocoding fetch (lines 218-220): writes the
    place name into the card it captured. *)
Definition reverseGeoCallback (card : nat) (r : response) : Eff unit :=
  match r with
  | RLocations ls =>
      l ← first ls;
      modifyPage (fun p =>
        set_cards
          (alter (fun c =>
             {| now_temp := now_temp c;
                now_img_src := now_img_src c;
                now_img_alt := now_img_alt c;
                now_body := now_body c;
                now_date := now_date c;
                now_location := Some (loc_name l, loc_country l) |}) card (cards p)) p)
  | _ => throw
  end.

(** Callback of the current-weather fetch (lines 177-432). *)
Definition currentWeatherCallback (run : nat) (lat lon : decimal) (r : response)
    : Eff unit :=
  match r with
  | RCurrentWeather currentWeather =>
      w ← first (cw_weather currentWeather);
      let weatherIcon :=
        if String.eqb (description w) "broken clouds" then "04.0d" else icon w in
      card ← createCard
        {| now_temp := cw_temp currentWeather;
           now_img_src := iconPath weatherIcon;
           now_img_alt := description w;
           now_body := description w;
           now_date := (cw_dt currentWeather, cw_timezone currentWeather);
           now_location := None |};
      fetchData (url_reverseGeo lat lon) (onReverseGeo card);;
      modifyPage (fun p => set_currentWeatherSection (currentWeatherSection p ++ [card]) p);;
      fetchData (url_forecast lat lon)
        (onForecast run lat lon
           {| cap_sunrise := cw_sunrise currentWeather;
              cap_sunset := cw_sunset currentWeather;
              cap_feels_like := cw_feels_like currentWeather;
              cap_pressure := cw_pressure currentWeather;
              cap_humidity := cw_humidity currentWeather;
              cap_visibility := cw_visibility currentWeather |})
  | _ => throw
  end.

(** [updateWeather(lat, lon)] up to its return (lines 152-177): the body
    before the first fetch, then the fetch is issued. *)
Definition updateWeather (lat lon : decimal) : Eff unit :=
  modifyPage (set_loadingActive true);;
  modifyPage (set_containerOverflowY "hidden");;
  modifyPage (set_containerFadeIn false);;
  modifyPage (set_errorDisplay "none");;
  modifyPage (set_currentWeatherSection []);;
  modifyPage (set_hourlySection []);;
  modifyPage (set_highlightSection []);;
  modifyPage (set_forecastSection []);;
  hash ← gets (fun st => locationHash st);
  (if String.eqb hash "#/current-location"
   then modifyPage (set_currentLocationDisabled true)
   else modifyPage (set_currentLocationDisabled false));;
  run ← gets (fun st => nextRun (loop st));
  modifyLoop (set_nextRun (S run));;
  fetchData (url_currentWeather lat lon) (onCurrentWeather run lat lon).

(** Lines 435-438. *)
Definition error404 : Eff unit :=
  modifyPage (set_errorDisplay "flex");;
  modifyPage (set_loadingActive false).

(** ** The event loop *)

Definition invoke (cb : callback) (r : response) : Eff unit :=
  match cb with
  | onGeo => geoCallback r
  | onCurrentWeather run lat lon => currentWeatherCallback run lat lon r
  | onReverseGeo card => reverseGeoCallback card r
  | onForecast run lat lon c => forecastCallback run lat lon c r
  | onAirPollution run c timezone => airPollutionCallback c timezone r
  end.

(** The response to the [i]-th request in flight arrives: the request leaves
    the queue and its callback runs on the body. *)
Definition deliver (i : nat) (r : response) : Eff unit :=
  reqs ← gets (fun st => pending (loop st));
  match reqs !! i with
  | None => mret tt
  | Some q =>
      modifyLoop (fun l =>
        set_log (log l ++ [Delivered q]) (set_pending (delete i (pending l)) l));;
      invoke (req_cb q) r
  end.

(** Modelled from the spec: what [fetchData] does when a request fails is
    not among the sources; the spec has the callback run on success only and
    no failure handling in its callers.  The failed request leaves the queue
    and nothing runs. *)
Definition fail (i : nat) : Eff unit :=
  modifyLoop (fun l => set_pending (delete i (pending l)) l).

(** [ms] milliseconds pass: the timers due by then fire, oldest first.  All
    timers are armed with the same delay, so the order of arming is the
    order of the deadlines. *)
Definition elapse (ms : nat) : Eff unit :=
  modifyLoop (fun l => set_clock (clock l + ms)%nat l);;
  now ← gets (fun st => clock (loop st));
  armed ← gets (fun st => timers (loop st));
  modifyLoop (set_timers (filter (fun t => negb (snd t <=? now)%nat) armed));;
  forOf (filter (fun t => (snd t <=? now)%nat) armed) (fun _ => searchTimerCallback).

Inductive event :=
| EvInput (value : string)               (* the user edits the search field *)
| EvElapse (ms : nat)                    (* time passes *)
| EvDeliver (i : nat) (r : response)     (* a response arrives *)
| EvFail (i : nat)                       (* a request fails *)
| EvToggleSearch                         (* click on a search toggler *)
| EvSearchItemClick                      (* click on a search result *)
| EvSetHash (h : string)                 (* navigation *)
| EvUpdateWeather (lat lon : decimal)    (* the router shows a location *)
| EvError404.                            (* the router finds no route *)

Definition step (e : event) : Eff unit :=
  match e with
  | EvInput value =>
      modifySearch (set_searchFieldValue value);;
      searchInputListener
  | EvElapse ms => elapse ms
  | EvDeliver i r => deliver i r
  | EvFail i => fail i
  | EvToggleSearch => toggleSearch
  | EvSearchItemClick => searchItemClick
  | EvSetHash h => modify (set_locationHash h)
  | EvUpdateWeather lat lon => updateWeather lat lon
  | EvError404 => error404
  end.

(** The state after a sequence of events.  An exception ends the listener
    it is raised in, not the page. *)
Definition run (es : list event) (st : State) : State :=
  foldl (fun s e => exec (step e) s) st es.

(** The page as first loaded, with nothing rendered yet. *)
Definition initial : State :=
  {| page :=
       {| loadingActive := false; containerOverflowY := ""; containerFadeIn := false;
          errorDisplay := ""; currentLocationDisabled := false; cards := [];
          currentWeatherSection := []; hourlySection := []; highlightSection := [];
          forecastSection := [] |};
     search :=
       {| searchViewActive := false; searchFieldValue := ""; searchFieldSearching := false;
          searchResultActive := false; searchResultLists := [] |};
     searchTimeout := None;
     locationHash := "";
     loop := {| clock := 0; timers := []; nextTimer := 1; pending := []; nextRun := 0;
                log := [] |} |}.

(** The effect of [fetchData] on the event loop. *)
Definition issue (q : Request) (l : Loop) : Loop :=
  set_log (log l ++ [Issued q]) (set_pending (pending l ++ [q]) l).

Definition issueAll (qs : list Request) (l : Loop) : Loop :=
  foldl (fun l q => issue q l) l qs.

(** A computation whose final state is always related to its initial state
    by [R], however it ends. *)
Definition preserves {A} (R : State -> State -> Prop) (m : Eff A) : Prop :=
  forall st, R st (snd (m st)).

(** The states that differ in the search view only. *)
Definition onlySearch (st st' : State) : Prop :=
  exists s', st' = set_search s' st.

(** ** Vocabulary of the specification *)

(** The icon rule in the specification's words: the description
    "broken clouds" renders the fixed override, any other description the
    icon code the API provided. *)
Definition iconFor (w : WeatherDesc) : string :=
  if decide (description w = "broken clouds") then "04.0d" else icon w.

(** One hourly entry and one daily entry as the specification describes
    them, for an element of the forecast list. *)
Definition hourlyView (timezone : Z) (e : ForecastEntry) : option HourlyItem :=
  w ← head (fe_weather e);
  Some {| hr_time := (fe_dt e, timezone);
          hr_img_src := iconPath (iconFor w);
          hr_img_title := description w;
          hr_temp := fe_temp e;
          hr_rotate := fe_wind_deg e - 180;
          hr_wind_speed := fe_wind_speed e |}.

Definition dailyView (e : ForecastEntry) : option DailyItem :=
  w ← head (fe_weather e);
  Some {| dy_img_src := iconPath (iconFor w);
          dy_img_title := description w;
          dy_temp_max := fe_temp_max e;
          dy_date := fe_dt_txt e |}.

(** The "Now" card as the specification describes it, before the place name
    arrives. *)
Definition nowView (cw : CurrentWeather) : option NowCard :=
  w ← head (cw_weather cw);
  Some {| now_temp := cw_temp cw;
          now_img_src := iconPath (iconFor w);
          now_img_alt := description w;
          now_body := description w;
          now_date := (cw_dt cw, cw_timezone cw);
          now_location := None |}.

(** The values of the current-weather response that the highlights card
    shows later. *)
Definition capture (cw : CurrentWeather) : Captured :=
  {| cap_sunrise := cw_sunrise cw;
     cap_sunset := cw_sunset cw;
     cap_feels_like := cw_feels_like cw;
     cap_pressure := cw_pressure cw;
     cap_humidity := cw_humidity cw;
     cap_visibility := cw_visibility cw |}.

(** An image source that follows the icon rule for a weather element. *)
Definition followsIconRule (w : WeatherDesc) (src : string) : Prop :=
  (description w = "broken clouds" -> src = iconPath "04.0d") /\
  (description w <> "broken clouds" -> src = iconPath (icon w)).

(** The indices [i], [i + 8], [i + 16], ... below [len], and the elements of
    a list at these indices.  The daily list samples from index 7. *)
Definition strideIndices (i len : nat) : list nat :=
  (fun k => i + 8 * k)%nat <$> seq 0 ((len - i + 7) / 8).

Definition sampleFrom {A} (i : nat) (l : list A) : list A :=
  omap (fun j => l !! j) (strideIndices i (length l)).

Definition dailySample {A} (l : list A) : list A := sampleFrom 7 l.

(** What a loop appends when it renders the elements of [l] in order and
    stops with an exception at the first one that has no view: the items,
    and whether it reached the end. *)
Fixpoint renderUntil {A B} (f : A -> option B) (l : list A) : list B * bool :=
  match l with
  | [] => ([], true)
  | x :: rest =>
      match f x with
      | None => ([], false)
      | Some y => (y :: fst (renderUntil f rest), snd (renderUntil f rest))
      end
  end.

Definition completionOf (ok : bool) : completion unit :=
  if ok then Normal tt else Throw.

(** The shape the specification's data model gives a forecast entry: it
    carries a description and an icon, that is, its [weather] array has a
    first element. *)
Definition hasWeather (e : ForecastEntry) : Prop := fe_weather e <> [].

(** The UTC day a forecast entry falls on, and lists whose consecutive
    entries are three hours apart (the upstream 3-hour forecast). *)
Definition utcDay (e : ForecastEntry) : Z := fe_dt e / 86400.

Definition threeHourly (l : list ForecastEntry) : Prop :=
  forall (i : nat) (e e' : ForecastEntry),
    l !! i = Some e -> l !! S i = Some e' -> fe_dt e' = fe_dt e + 10800.

(** The search strings of the geocoding fetches in a log, oldest first. *)
Definition geoQueries (l : list LogEntry) : list string :=
  omap (fun e =>
          match e with
          | Issued {| req_url := url_geo q |} => Some q
          | _ => None
          end) l.

(** The three fetches of the weather chain, and which of them a request is,
    with the [updateWeather] call it descends from. *)
Inductive stage := Current | Forecasting | AirQuality.

Definition callbackStage (cb : callback) : option (nat * stage) :=
  match cb with
  | onCurrentWeather run _ _ => Some (run, Current)
  | onForecast run _ _ _ => Some (run, Forecasting)
  | onAirPollution run _ _ => Some (run, AirQuality)
  | onGeo | onReverseGeo _ => None
  end.

Definition stageOf (q : Request) : option (nat * stage) := callbackStage (req_cb q).

Definition nextStage (s : stage) : option stage :=
  match s with
  | Current => Some Forecasting
  | Forecasting => Some AirQuality
  | AirQuality => None
  end.

Definition chainStage (run : nat) (q : Request) : option stage :=
  match stageOf q with
  | Some (r, s) => if decide (r = run) then Some s else None
  | None => None
  end.

(** A fetch of the chain is issued ([Start]) and its response is delivered
    to the callback ([Finish]). *)
Inductive mark := Start (s : stage) | Finish (s : stage).

Definition chainMark (run : nat) (e : LogEntry) : option mark :=
  match e with
  | Issued q => Start <$> chainStage run q
  | Delivered q => Finish <$> chainStage run q
  end.

(** The history of one [updateWeather] call, read off the log. *)
Definition chainTrace (run : nat) (l : list LogEntry) : list mark :=
  omap (chainMark run) l.

Definition chainOrder : list mark :=
  [Start Current; Finish Current; Start Forecasting; Finish Forecasting;
   Start AirQuality; Finish AirQuality].

(** The chain fetches of one call that are in flight. *)
Definition chainInFlight (call : nat) (l : Loop) : list stage :=
  omap (chainStage call) (pending l).

(** The requests a callback may issue: none of the chain, or the next
    fetch of the chain its own request belongs to. *)
Definition spawns (cb : callback) (qs : list Request) : Prop :=
  forall call : nat,
    omap (chainStage call) qs = [] \/
    exists s s', callbackStage cb = Some (call, s) /\ nextStage s = Some s' /\
                 omap (chainStage call) qs = [s'].

(** What one event does to the queue, the log and the run counter. *)
Inductive loopTrans (l l' : Loop) : Prop :=
| LT_issue (qs : list Request) :
    (forall call, omap (chainStage call) qs = []) ->
    pending l' = pending l ++ qs ->
    log l' = log l ++ (Issued <$> qs) ->
    nextRun l' = nextRun l ->
    loopTrans l l'
| LT_fail (i : nat) :
    pending l' = delete i (pending l) ->
    log l' = log l ->
    nextRun l' = nextRun l ->
    loopTrans l l'
| LT_deliver (i : nat) (q : Request) (qs : list Request) :
    pending l !! i = Some q ->
    spawns (req_cb q) qs ->
    pending l' = delete i (pending l) ++ qs ->
    log l' = log l ++ Delivered q :: (Issued <$> qs) ->
    nextRun l' = nextRun l ->
    loopTrans l l'
| LT_start (q : Request) :
    stageOf q = Some (nextRun l, Current) ->
    pending l' = pending l ++ [q] ->
    log l' = log l ++ [Issued q] ->
    nextRun l' = S (nextRun l) ->
    loopTrans l l'.

(** The invariant of one call's chain: its history is an initial part of
    the fixed order, at most one of its fetches is in flight, namely the one
    issued last, and a call not yet made has no history. *)
Definition chainInv (call : nat) (l : Loop) : Prop :=
  (exists n : nat, chainTrace call (log l) = take n chainOrder) /\
  (chainInFlight call l = [] \/
   exists s, chainInFlight call l = [s] /\ last (chainTrace call (log l)) = Some (Start s)) /\
  ((nextRun l <= call)%nat -> chainTrace call (log l) = [] /\ chainInFlight call l = []).

(** The chain requests in flight, of whatever call. *)
Definition anyStage (q : Request) : option stage := snd <$> stageOf q.

Definition chainPending (st : State) : list stage :=
  omap anyStage (pending (loop st)).

(** Every listener and callback of a sequence of events ends normally. *)
Fixpoint allReturn (es : list event) (st : State) : bool :=
  match es with
  | [] => true
  | e :: rest => returns (step e) st && allReturn rest (exec (step e) st)
  end.

(** Events that neither start another weather view nor lose a response. *)
Definition undisturbed (e : event) : bool :=
  match e with
  | EvUpdateWeather _ _ | EvFail _ => false
  | _ => true
  end.

(** The page the specification expects once a weather view is complete. *)
Definition viewComplete (p : Page) : Prop :=
  length (currentWeatherSection p) = 1%nat /\
  (exists items, hourlySection p = [items] /\ (length items <= 8)%nat) /\
  length (highlightSection p) = 1%nat /\
  (exists items, forecastSection p = [items]) /\
  loadingActive p = false.

(** How far a single weather view has come, by the chain fetch in flight:
    what is on the page while the current-weather, the forecast and the
    air-pollution response is awaited, and when none is. *)
Definition viewProgressOf (fl : list stage) (p : Page) : Prop :=
  match fl with
  | [Current] =>
      currentWeatherSection p = [] /\ hourlySection p = [] /\
      highlightSection p = [] /\ forecastSection p = []
  | [Forecasting] =>
      length (currentWeatherSection p) = 1%nat /\ hourlySection p = [] /\
      highlightSection p = [] /\ forecastSection p = []
  | [AirQuality] =>
      length (currentWeatherSection p) = 1%nat /\
      (exists items, hourlySection p = [items] /\ (length items <= 8)%nat) /\
      highlightSection p = [] /\
      (exists items, forecastSection p = [items]) /\
      loadingActive p = false
  | [] => viewComplete p
  | _ => False
  end.

Definition viewProgress (st : State) : Prop :=
  viewProgressOf (chainPending st) (page st).

(** ** Sample payloads *)

Definition dec (m e : Z) : decimal := {| d_mant := m; d_exp := e |}.

Definition brokenClouds : WeatherDesc :=
  {| description := "broken clouds"; icon := "01d" |}.
Definition clearSky : WeatherDesc :=
  {| description := "clear sky"; icon := "01d" |}.

Definition sampleCurrent : CurrentWeather :=
  {| cw_weather := [brokenClouds]; cw_dt := 1700006400; cw_sunrise := 1700029000;
     cw_sunset := 1700061000; cw_temp := dec 2573 (-2); cw_feels_like := dec 2610 (-2);
     cw_pressure := 1012; cw_humidity := 64; cw_visibility := 10000;
     cw_timezone := 21600 |}.

Definition entryAt (w : WeatherDesc) (t : Z * string) : ForecastEntry :=
  {| fe_dt := fst t; fe_temp := dec 2481 (-2); fe_temp_max := dec 2602 (-2);
     fe_weather := [w]; fe_wind_deg := 210; fe_wind_speed := dec 352 (-2);
     fe_dt_txt := snd t |}.

(** Two days of a 3-hour forecast. *)
Definition sampleTimes : list (Z * string) :=
  [
   (1700006400, "2023-11-15 00:00:00");
   (1700017200, "2023-11-15 03:00:00");
   (1700028000, "2023-11-15 06:00:00");
   (1700038800, "2023-11-15 09:00:00");
   (1700049600, "2023-11-15 12:00:00");
   (1700060400, "2023-11-15 15:00:00");
   (1700071200, "2023-11-15 18:00:00");
   (1700082000, "2023-11-15 21:00:00");
   (1700092800, "2023-11-16 00:00:00");
   (1700103600, "2023-11-16 03:00:00");
   (1700114400, "2023-11-16 06:00:00");
   (1700125200, "2023-11-16 09:00:00");
   (1700136000, "2023-11-16 12:00:00");
   (1700146800, "2023-11-16 15:00:00");
   (1700157600, "2023-11-16 18:00:00");
   (1700168400, "2023-11-16 21:00:00")
  ].

Definition sampleForecast : Forecast :=
  {| fc_list := entryAt clearSky <$> sampleTimes; fc_timezone := 21600 |}.

(** The sample forecast with "broken clouds" at index 2, within the hourly
    list, and at index 15, sampled by the daily list.  The icon code the API
    gives with them is "01d". *)
Definition cloudyForecast : Forecast :=
  {| fc_list :=
       <[2%nat := entryAt brokenClouds (1700028000, "2023-11-15 06:00:00")]>
         (<[15%nat := entryAt brokenClouds (1700168400, "2023-11-16 21:00:00")]>
            (fc_list sampleForecast));
     fc_timezone := 21600 |}.

(** Sixteen entries for one and the same instant. *)
Definition sameInstant : Forecast :=
  {| fc_list := replicate 16 (entryAt clearSky (1700006400, "2023-11-15 00:00:00"));
     fc_timezone := 21600 |}.

Definition sampleAir : AirPollution :=
  {| ap_list :=
       [{| ae_aqi := 2; ae_no2 := dec 77 (-2); ae_o3 := dec 6866 (-2);
           ae_so2 := dec 64 (-2); ae_pm2_5 := dec 5 (-1) |}] |}.

Definition samplePlace : list Location :=
  [{| loc_name := "Dhaka"; loc_lat := dec 238103 (-4); loc_lon := dec 904125 (-4);
      loc_country := "BD"; loc_state := Some "Dhaka Division" |}].

Definition sampleCaptured : Captured :=
  {| cap_sunrise := 1700029000; cap_sunset := 1700061000; cap_feels_like := dec 2610 (-2);
     cap_pressure := 1012; cap_humidity := 64; cap_visibility := 10000 |}.

(** One weather view from the fresh page: the call, then the four
    responses in the order current weather, place name, forecast, air
    pollution. *)
Definition sampleResponses : list event :=
  [EvDeliver 0 (RCurrentWeather sampleCurrent);
   EvDeliver 0 (RLocations samplePlace);
   EvDeliver 0 (RForecast sampleForecast);
   EvDeliver 0 (RAirPollution sampleAir)].

Definition sampleSession : list event :=
  EvUpdateWeather (dec 238103 (-4)) (dec 904125 (-4)) :: sampleResponses.

(** Two calls in a row, then all eight responses, each to the oldest
    request in flight. *)
Definition overlappingSession : list event :=
  [EvUpdateWeather (dec 238103 (-4)) (dec 904125 (-4));
   EvUpdateWeather (dec 238103 (-4)) (dec 904125 (-4));
   EvDeliver 0 (RCurrentWeather sampleCurrent);
   EvDeliver 0 (RCurrentWeather sampleCurrent);
   EvDeliver 0 (RLocations samplePlace);
   EvDeliver 0 (RForecast sampleForecast);
   EvDeliver 0 (RLocations samplePlace);
   EvDeliver 0 (RForecast sampleForecast);
   EvDeliver 0 (RAirPollution sampleAir);
   EvDeliver 0 (RAirPollution sampleAir)].

(** ** Malformed and short sample payloads *)

(** A forecast entry whose [weather] array is empty. *)
Definition entryWithoutWeather : ForecastEntry :=
  {| fe_dt := 1700017200; fe_temp := dec 2481 (-2); fe_temp_max := dec 2602 (-2);
     fe_weather := []; fe_wind_deg := 210; fe_wind_speed := dec 352 (-2);
     fe_dt_txt := "2023-11-15 03:00:00" |}.

(** The sample forecast with a bad entry at index 3, with a bad entry at
    index 15, and cut down to five entries. *)
Definition badHourlyForecast : Forecast :=
  {| fc_list := <[3%nat := entryWithoutWeather]> (fc_list sampleForecast);
     fc_timezone := 21600 |}.

Definition badDailyForecast : Forecast :=
  {| fc_list := <[15%nat := entryWithoutWeather]> (fc_list sampleForecast);
     fc_timezone := 21600 |}.

Definition shortForecast : Forecast :=
  {| fc_list := take 5 (fc_list sampleForecast); fc_timezone := 21600 |}.

(** ** Further vocabulary *)

(** One search result as the template of lines 81-88 shows it. *)
Definition searchItemView (l : Location) : SearchItem :=
  {| si_title := loc_name l;
     si_subtitle := (default "" (loc_state l), loc_country l);
     si_href := (loc_lat l, loc_lon l) |}.

(** The highlights card for the values captured from the current-weather
    response, a timezone, and the first element of the air-pollution list. *)
Definition highlightView (c : Captured) (timezone : Z) (e : AirEntry) : HighlightCard :=
  {| hl_humidity := cap_humidity c;
     hl_pressure := cap_pressure c;
     hl_feels_like := cap_feels_like c;
     hl_visibility := cap_visibility c;
     hl_sunrise := (cap_sunrise c, timezone);
     hl_sunset := (cap_sunset c, timezone);
     hl_aqi := ae_aqi e;
     hl_pm2_5 := ae_pm2_5 e;
     hl_so2 := ae_so2 e;
     hl_no2 := ae_no2 e;
     hl_o3 := ae_o3 e |}.

(** A "Now" card with the place name written into its label. *)
Definition withLocation (l : Location) (c : NowCard) : NowCard :=
  {| now_temp := now_temp c;
     now_img_src := now_img_src c;
     now_img_alt := now_img_alt c;
     now_body := now_body c;
     now_date := now_date c;
     now_location := Some (loc_name l, loc_country l) |}.

(** The "Now" cards that the reverse-geocoding requests in flight will
    write their place name to. *)
Definition labelTarget (q : Request) : option nat :=
  match req_cb q with
  | onReverseGeo card => Some card
  | _ => None
  end.

Definition labelTargets (st : State) : list nat :=
  omap labelTarget (pending (loop st)).

(** Every place-name request in flight names a card of its own, and the
    card exists. *)
Definition labelsOK (targets : list nat) (ncards : nat) : Prop :=
  NoDup targets /\ forall card : nat, card ∈ targets -> (card < ncards)%nat.

(** The clicks that run [toggleSearch]: on a toggler and on a result. *)
Definition togglesSearch (e : event) : bool :=
  match e with
  | EvToggleSearch | EvSearchItemClick => true
  | _ => false
  end.

(** ** Bottom tab navigation (lines 120-145)

    The tab switcher has a state of its own: the tab buttons, the elements
    of the document that a tab can name or that are tab contents, the
    container's [slide-in] class, and the timers armed by [switchTab]. *)
Module Tabs.

(** A [data-tab-btn] element: its [data-tab-target] attribute, if any, and
    whether its class list has [active]. *)
Record TabButton := { target : option string; active : bool }.

(** An element of the document, in tree order: its [id] attribute, whether
    it carries [data-tab-content], and its [style.display]. *)
Record Element := { el_id : option string; isTabContent : bool; display : string }.

Record View := {
  tabButtons : list TabButton;
  elements : list Element;
  slideIn : bool;                     (* container.classList has "slide-in" *)
  now : nat;                          (* clock in ms *)
  armed : list (nat * option nat)     (* deadline, captured targetContent *)
}.

Definition setActive (b : bool) (t : TabButton) : TabButton :=
  {| target := target t; active := b |}.

Definition setDisplay (d : string) (e : Element) : Element :=
  {| el_id := el_id e; isTabContent := isTabContent e; display := d |}.

(** [document.getElementById(key)]: the first element in tree order whose
    id is [key], as an index; [null] when there is none, and for the empty
    key. *)
Definition getElementById (key : string) (els : list Element) : option nat :=
  if String.eqb key "" then None
  else fst <$> list_find (fun e => el_id e = Some key) els.

(** [switchTab] with [this] the [k]-th tab button (lines 123-143), up to
    its return.  [getAttribute] gives [null] for a missing attribute, which
    [getElementById] reads as the string "null". *)
Definition switchTab (k : nat) (v : View) : View :=
  match tabButtons v !! k with
  | None => v
  | Some this =>
      let targetId := default "null" (target this) in
      let buttons :=
        alter (setActive true) k (setActive false <$> tabButtons v) in
      let hidden :=
        (fun e => if isTabContent e then setDisplay "none" e else e) <$> elements v in
      let targetContent := getElementById targetId hidden in
      {| tabButtons := buttons;
         elements := hidden;
         slideIn := false;
         now := now v;
         armed := armed v ++ [((now v + 10)%nat, targetContent)] |}
  end.

(** The timer callback (lines 139-142): [targetContent.style] throws for
    [null], before the container gets its class back. *)
Definition showTarget (targetContent : option nat) (v : View) : completion unit * View :=
  match targetContent with
  | None => (Throw, v)
  | Some j =>
      (Normal tt,
       {| tabButtons := tabButtons v;
          elements := alter (setDisplay "block") j (elements v);
          slideIn := true;
          now := now v;
          armed := armed v |})
  end.

(** [ms] milliseconds pass: the timers due by then fire in the order they
    were armed (all have the same delay).  An exception ends its callback
    only. *)
Definition elapse (ms : nat) (v : View) : View :=
  let t := (now v + ms)%nat in
  let due := filter (fun a => (fst a <=? t)%nat) (armed v) in
  let rest := filter (fun a => negb (fst a <=? t)%nat) (armed v) in
  foldl (fun w a => snd (showTarget (snd a) w))
    {| tabButtons := tabButtons v; elements := elements v; slideIn := slideIn v;
       now := t; armed := rest |}
    due.

Inductive event :=
| Click (k : nat)       (* click on the k-th tab button *)
| Elapse (ms : nat).    (* time passes *)

Definition step (e : event) (v : View) : View :=
  match e with
  | Click k => switchTab k v
  | Elapse ms => elapse ms v
  end.

Definition run (es : list event) (v : View) : View :=
  foldl (fun w e => step e w) v es.

Definition isElapse (e : event) : bool :=
  match e with Elapse _ => true | Click _ => false end.

(** A page with three tabs, the first one open. *)
Definition sampleView : View :=
  {| tabButtons :=
       [{| target := Some "weather"; active := true |};
        {| target := Some "forecast"; active := false |};
        {| target := Some "about"; active := false |};
        {| target := None; active := false |}];
     elements :=
       [{| el_id := Some "weather"; isTabContent := true; display := "block" |};
        {| el_id := Some "forecast"; isTabContent := true; display := "none" |};
        {| el_id := Some "about"; isTabContent := true; display := "none" |}];
     slideIn := true;
     now := 0;
     armed := [] |}.

End Tabs.

(** * Properties *)

(** ** The monad and the loops *)

Ltac eff_unfold :=
  unfold mbind, Eff_mbind, Eff_bind, mret, Eff_mret, Eff_ret, first, modifyPage,
    modifySearch, modifyLoop, gets, modify, throw;
  cbv beta iota.

(** The inline conditional of lines 191, 251 and 401 is the icon rule. *)
Lemma inline_icon (w : WeatherDesc) :
  (if String.eqb (description w) "broken clouds" then "04.0d" else icon w) = iconFor w.
Proof.
  unfold iconFor. destruct (String.eqb_spec (description w) "broken clouds");
    case_decide; congruence.
Qed.

Lemma renderUntil_length {A B} (f : A -> option B) (l : list A) :
  (length (fst (renderUntil f l)) <= length l)%nat.
Proof.
  induction l as [|x l IH]; cbn; [lia|].
  destruct (f x); cbn; lia.
Qed.

Lemma renderUntil_lookup {A B} (f : A -> option B) (l : list A) (k : nat) (y : B) :
  fst (renderUntil f l) !! k = Some y ->
  exists x, l !! k = Some x /\ f x = Some y.
Proof.
  revert k. induction l as [|x l IH]; intros k; cbn; [done|].
  destruct (f x) as [y0|] eqn:E; cbn; [|done].
  destruct k as [|k]; cbn.
  - intros [= <-]. eauto.
  - apply IH.
Qed.

Lemma renderUntil_total {A B} (f : A -> option B) (l : list A) :
  Forall (fun x => is_Some (f x)) l ->
  snd (renderUntil f l) = true /\ f <$> l = Some <$> fst (renderUntil f l).
Proof.
  induction 1 as [|x l [y Hy] _ [IH1 IH2]]; cbn; [done|].
  rewrite Hy. cbn. split; [done|]. now rewrite IH2.
Qed.

Lemma hourlyView_cases (timezone : Z) (e : ForecastEntry) :
  hourlyView timezone e =
    match fe_weather e with
    | [] => None
    | w :: _ =>
        Some {| hr_time := (fe_dt e, timezone);
                hr_img_src := iconPath (iconFor w);
                hr_img_title := description w;
                hr_temp := fe_temp e;
                hr_rotate := fe_wind_deg e - 180;
                hr_wind_speed := fe_wind_speed e |}
    end.
Proof. unfold hourlyView. now destruct (fe_weather e). Qed.

Lemma dailyView_cases (e : ForecastEntry) :
  dailyView e =
    match fe_weather e with
    | [] => None
    | w :: _ =>
        Some {| dy_img_src := iconPath (iconFor w);
                dy_img_title := description w;
                dy_temp_max := fe_temp_max e;
                dy_date := fe_dt_txt e |}
    end.
Proof. unfold dailyView. now destruct (fe_weather e). Qed.

Lemma hourlyLoop_renders (timezone : Z) (entries : list ForecastEntry) :
  forall (index : nat) (st : State) (ul : list HourlyItem) rest,
    hourlySection (page st) = ul :: rest ->
    hourlyLoop timezone index entries st =
      (completionOf (snd (renderUntil (hourlyView timezone) (take (8 - index) entries))),
       set_page
         (set_hourlySection
            ((ul ++ fst (renderUntil (hourlyView timezone) (take (8 - index) entries)))
               :: rest) (page st)) st).
Proof.
  induction entries as [|data entries IH]; intros index st ul rest Hul.
  - rewrite take_nil. cbn. rewrite app_nil_r, <- Hul. reflexivity.
  - cbn [hourlyLoop]. destruct (Nat.ltb_spec 7 index) as [Hlt|Hge].
    + replace (8 - index)%nat with 0%nat by lia. cbn.
      rewrite app_nil_r, <- Hul. reflexivity.
    + replace (8 - index)%nat with (S (8 - S index)) by lia.
      cbn [take renderUntil]. rewrite hourlyView_cases.
      destruct (fe_weather data) as [|w ws]; cbn [first fst snd completionOf].
      * rewrite app_nil_r, <- Hul. reflexivity.
      * eff_unfold. unfold appendHourly. eff_unfold. rewrite Hul. eff_unfold.
        rewrite inline_icon.
        erewrite IH by reflexivity. cbn [page set_page hourlySection set_hourlySection].
        rewrite <- app_assoc. reflexivity.
Qed.

Lemma strideIndices_ge (i len : nat) : (len <= i)%nat -> strideIndices i len = [].
Proof.
  intros H. unfold strideIndices.
  replace ((len - i + 7) / 8)%nat with 0%nat; [done|].
  replace (len - i + 7)%nat with 7%nat by lia. reflexivity.
Qed.

Lemma stride_count (i len : nat) :
  (i < len)%nat -> S ((len - (i + 8) + 7) / 8) = ((len - i + 7) / 8)%nat.
Proof.
  intros H. destruct (Nat.le_gt_cases (i + 8) len) as [Hle|Hgt].
    + replace (len - i + 7)%nat with (1 * 8 + (len - (i + 8) + 7))%nat by lia.
      rewrite Nat.div_add_l by lia. lia.
    + replace (len - (i + 8) + 7)%nat with 7%nat by lia.
      change (S (7 / 8))%nat with 1%nat.
      apply (Nat.div_unique _ 8 1 (len - i - 1)); lia.
Qed.

Lemma strideIndices_lt (i len : nat) :
  (i < len)%nat -> strideIndices i len = i :: strideIndices (i + 8) len.
Proof.
  intros H. unfold strideIndices. rewrite <- stride_count by done.
  cbn [seq fmap list_fmap]. f_equal; [lia|].
  rewrite <- fmap_S_seq, <- list_fmap_compose.
  apply list_fmap_ext. intros _ k _. cbn. lia.
Qed.

Lemma sampleFrom_ge {A} (i : nat) (l : list A) :
  (length l <= i)%nat -> sampleFrom i l = [].
Proof. intros H. unfold sampleFrom. now rewrite strideIndices_ge. Qed.

Lemma sampleFrom_lt {A} (i : nat) (l : list A) (x : A) :
  l !! i = Some x -> sampleFrom i l = x :: sampleFrom (i + 8) l.
Proof.
  intros H. unfold sampleFrom.
  rewrite strideIndices_lt by (eapply lookup_lt_Some; eauto).
  cbn. now rewrite H.
Qed.

Lemma dailyLoop_renders (l : list ForecastEntry) :
  forall (fuel i : nat) (st : State) (ul : list DailyItem) rest,
    (length l <= fuel + i)%nat ->
    forecastSection (page st) = ul :: rest ->
    dailyLoop fuel l (length l) i st =
      (completionOf (snd (renderUntil dailyView (sampleFrom i l))),
       set_page
         (set_forecastSection ((ul ++ fst (renderUntil dailyView (sampleFrom i l))) :: rest)
            (page st)) st).
Proof.
  induction fuel as [|fuel IH]; intros i st ul rest Hfuel Hul.
  - rewrite sampleFrom_ge by lia. cbn. rewrite app_nil_r, <- Hul. reflexivity.
  - cbn [dailyLoop]. destruct (Nat.ltb_spec i (length l)) as [Hlt|Hge].
    + destruct (lookup_lt_is_Some_2 l i Hlt) as [e He]. rewrite He.
      rewrite (sampleFrom_lt _ _ _ He). cbn [renderUntil]. rewrite dailyView_cases.
      destruct (fe_weather e) as [|w ws]; cbn [fst snd completionOf].
      * eff_unfold. rewrite app_nil_r, <- Hul. reflexivity.
      * eff_unfold. unfold appendDaily. eff_unfold. rewrite Hul. eff_unfold.
        rewrite inline_icon.
        erewrite IH by (reflexivity || lia).
        cbn [page set_page forecastSection set_forecastSection].
        rewrite <- app_assoc. reflexivity.
    + rewrite sampleFrom_ge by lia. cbn. rewrite app_nil_r, <- Hul. reflexivity.
Qed.

(** [dailyLoop] never stops for lack of fuel when started as the callback
    starts it: more fuel changes nothing. *)
Lemma dailyLoop_fuel (l : list ForecastEntry) (extra : nat) (st : State) :
  forecastSection (page st) <> [] ->
  dailyLoop (length l + extra) l (length l) 7 st = dailyLoop (length l) l (length l) 7 st.
Proof.
  intros H. destruct (forecastSection (page st)) as [|ul rest] eqn:E; [done|].
  rewrite !(dailyLoop_renders l _ 7 st ul rest) by (lia || done). reflexivity.
Qed.

Lemma fetchData_issue (u : endpoint) (cb : callback) (st : State) :
  fetchData u cb st =
    (Normal tt, set_loop (issue {| req_url := u; req_cb := cb |} (loop st)) st).
Proof. reflexivity. Qed.

(** The forecast callback in one equation: what it leaves on the page and in
    the event loop, and where it stops. *)
Lemma forecastCallback_renders (run : nat) (lat lon : decimal) (c : Captured)
    (f : Forecast) (st : State) :
  let hr := renderUntil (hourlyView (fc_timezone f)) (take 8 (fc_list f)) in
  let dr := renderUntil dailyView (dailySample (fc_list f)) in
  let stH := set_page (set_hourlySection [fst hr] (page st)) st in
  let stA :=
    set_loop
      (issue {| req_url := url_airPollution lat lon;
                req_cb := onAirPollution run c (fc_timezone f) |} (loop stH)) stH in
  let stD := set_page (set_forecastSection [fst dr] (page stA)) stA in
  let stF :=
    set_page
      (set_containerFadeIn true
         (set_containerOverflowY "overlay" (set_loadingActive false (page stD)))) stD in
  forecastCallback run lat lon c (RForecast f) st =
    if snd hr then if snd dr then (Normal tt, stF) else (Throw, stD) else (Throw, stH).
Proof.
  intros hr dr stH stA stD stF. unfold forecastCallback. eff_unfold.
  erewrite (hourlyLoop_renders _ _ 0) by reflexivity.
  change (8 - 0)%nat with 8%nat. fold hr. cbn [app].
  destruct (snd hr); cbn [completionOf]; [|reflexivity].
  rewrite fetchData_issue.
  erewrite (dailyLoop_renders _ _ 7) by (lia || reflexivity).
  fold (dailySample (fc_list f)). fold dr. cbn [app].
  destruct (snd dr); reflexivity.
Qed.

Lemma hasWeather_hourlyView (timezone : Z) (e : ForecastEntry) :
  hasWeather e -> is_Some (hourlyView timezone e).
Proof.
  unfold hasWeather. rewrite hourlyView_cases. destruct (fe_weather e); [done|eauto].
Qed.

Lemma hasWeather_dailyView (e : ForecastEntry) : hasWeather e -> is_Some (dailyView e).
Proof.
  unfold hasWeather. rewrite dailyView_cases. destruct (fe_weather e); [done|eauto].
Qed.

Lemma sampleFrom_lookup {A} (l : list A) (k : nat) :
  forall i : nat, sampleFrom i l !! k = l !! (i + 8 * k)%nat.
Proof.
  induction k as [|k IH]; intros i.
  - replace (i + 8 * 0)%nat with i by lia.
    destruct (l !! i) as [x|] eqn:E.
    + now rewrite (sampleFrom_lt _ _ _ E).
    + rewrite sampleFrom_ge; [done|]. now apply lookup_ge_None.
  - destruct (l !! i) as [x|] eqn:E.
    + rewrite (sampleFrom_lt _ _ _ E).
      change (sampleFrom (i + 8) l !! k = l !! (i + 8 * S k)%nat).
      rewrite IH. f_equal. lia.
    + apply lookup_ge_None in E. rewrite sampleFrom_ge by done.
      symmetry. apply lookup_ge_None. lia.
Qed.

Lemma sampleFrom_elem_of {A} (l : list A) (x : A) (i : nat) :
  x ∈ sampleFrom i l -> x ∈ l.
Proof.
  intros [k Hk]%list_elem_of_lookup. rewrite sampleFrom_lookup in Hk.
  eapply list_elem_of_lookup_2; eauto.
Qed.

Lemma dailySample_length {A} (l : list A) :
  length (dailySample l) = (length l / 8)%nat.
Proof.
  unfold dailySample.
  assert (forall n i, (length l - i <= n)%nat ->
            length (sampleFrom i l) = ((length l - i + 7) / 8)%nat) as H.
  { induction n as [|n IH]; intros i Hn.
    - rewrite sampleFrom_ge by lia.
      replace (length l - i + 7)%nat with 7%nat by lia. reflexivity.
    - destruct (l !! i) as [x|] eqn:E.
      + rewrite (sampleFrom_lt _ _ _ E). cbn [length]. rewrite IH.
        * apply lookup_lt_Some in E. now apply stride_count.
        * apply lookup_lt_Some in E. lia.
      + apply lookup_ge_None in E. rewrite sampleFrom_ge by done.
        replace (length l - i + 7)%nat with 7%nat by lia. reflexivity. }
  rewrite (H (length l)) by lia.
  destruct (Nat.le_gt_cases 7 (length l)).
  - f_equal. lia.
  - replace (length l - 7 + 7)%nat with 7%nat by lia.
    rewrite (Nat.div_small (length l)) by lia. reflexivity.
Qed.

Lemma threeHourly_offset (l : list ForecastEntry) :
  threeHourly l ->
  forall (n i : nat) (e e' : ForecastEntry),
    l !! i = Some e -> l !! (i + n)%nat = Some e' ->
    fe_dt e' = fe_dt e + 10800 * Z.of_nat n.
Proof.
  intros H3 n. induction n as [|n IH]; intros i e e' He He'.
  - replace (i + 0)%nat with i in He' by lia. rewrite He in He'. injection He' as <-. lia.
  - destruct (lookup_lt_is_Some_2 l (i + n)) as [m Hm].
    { apply lookup_lt_Some in He'. lia. }
    replace (i + S n)%nat with (S (i + n)) in He' by lia.
    rewrite (H3 _ _ _ Hm He'), (IH _ _ _ He Hm). lia.
Qed.

(** Under 3-hour spacing the sampled entries fall on consecutive days. *)
Lemma threeHourly_days (l : list ForecastEntry) :
  threeHourly l ->
  forall (j k : nat) (e e' : ForecastEntry),
    dailySample l !! j = Some e -> dailySample l !! k = Some e' ->
    utcDay e' - utcDay e = Z.of_nat k - Z.of_nat j.
Proof.
  intros H3.
  assert (forall j d e e', dailySample l !! j = Some e ->
            dailySample l !! (j + d)%nat = Some e' ->
            utcDay e' = utcDay e + Z.of_nat d) as Hup.
  { intros j d e e' He He'. unfold dailySample in *.
    rewrite sampleFrom_lookup in He, He'.
    replace (7 + 8 * (j + d))%nat with ((7 + 8 * j) + 8 * d)%nat in He' by lia.
    unfold utcDay. rewrite (threeHourly_offset l H3 _ _ _ _ He He').
    replace (fe_dt e + 10800 * Z.of_nat (8 * d)) with (fe_dt e + Z.of_nat d * 86400) by lia.
    now rewrite Z.div_add by lia. }
  intros j k e e' He He'.
  destruct (Nat.le_gt_cases j k) as [Hjk|Hjk].
  - replace k with (j + (k - j))%nat in He' by lia.
    rewrite (Hup _ _ _ _ He He'). lia.
  - replace j with (k + (j - k))%nat in He by lia.
    rewrite (Hup _ _ _ _ He' He). lia.
Qed.

Lemma threeHourly_distinct_days (l : list ForecastEntry) :
  threeHourly l -> NoDup (utcDay <$> dailySample l).
Proof.
  intros H3. apply NoDup_alt. intros j k d Hj Hk.
  rewrite list_lookup_fmap in Hj, Hk.
  destruct (dailySample l !! j) as [e|] eqn:Ej; [|done].
  destruct (dailySample l !! k) as [e'|] eqn:Ek; [|done].
  cbn in Hj, Hk. pose proof (threeHourly_days l H3 _ _ _ _ Ej Ek). 
  injection Hj as Hj. injection Hk as Hk. lia.
Qed.

(** ** The hourly and the daily list *)

Lemma forecastCallback_hourly (run : nat) (lat lon : decimal) (c : Captured)
    (f : Forecast) (st : State) :
  hourlySection (page (exec (forecastCallback run lat lon c (RForecast f)) st)) =
    [fst (renderUntil (hourlyView (fc_timezone f)) (take 8 (fc_list f)))].
Proof.
  unfold exec. rewrite forecastCallback_renders.
  repeat match goal with |- context [if ?b then _ else _] => destruct b end; reflexivity.
Qed.

Lemma forecastCallback_daily (run : nat) (lat lon : decimal) (c : Captured)
    (f : Forecast) (st : State) :
  Forall hasWeather (fc_list f) ->
  forecastCallback run lat lon c (RForecast f) st =
    (Normal tt, exec (forecastCallback run lat lon c (RForecast f)) st) /\
  forecastSection (page (exec (forecastCallback run lat lon c (RForecast f)) st)) =
    [fst (renderUntil dailyView (dailySample (fc_list f)))] /\
  dailyView <$> dailySample (fc_list f) =
    Some <$> fst (renderUntil dailyView (dailySample (fc_list f))).
Proof.
  intros Hw.
  destruct (renderUntil_total (hourlyView (fc_timezone f)) (take 8 (fc_list f))) as [Hh _].
  { eapply Forall_impl; [apply Forall_take, Hw|]. apply hasWeather_hourlyView. }
  destruct (renderUntil_total dailyView (dailySample (fc_list f))) as [Hd Hd'].
  { apply Forall_forall. intros e He%sampleFrom_elem_of.
    apply hasWeather_dailyView. rewrite Forall_forall in Hw. auto. }
  unfold exec. rewrite forecastCallback_renders, Hh, Hd. cbn [fst snd]. auto.
Qed.

(** C3.  For a forecast list whose first eight entries have the shape the
    data model gives them, the hourly list rendered by the forecast
    callback has min(8, length) items, and they are the views of the list
    elements at indices 0 to 7, in order. *)
Theorem hourly_list_first_eight (run : nat) (lat lon : decimal) (c : Captured)
    (f : Forecast) (st : State) :
  Forall hasWeather (take 8 (fc_list f)) ->
  exists items : list HourlyItem,
    hourlySection (page (exec (forecastCallback run lat lon c (RForecast f)) st)) = [items] /\
    length items = Nat.min 8 (length (fc_list f)) /\
    hourlyView (fc_timezone f) <$> take 8 (fc_list f) = Some <$> items /\
    (forall k : nat, (k < 8)%nat ->
       items !! k = fc_list f !! k ≫= hourlyView (fc_timezone f)) /\
    (forall k : nat, (8 <= k)%nat -> items !! k = None).
Proof.
  intros Hw.
  destruct (renderUntil_total (hourlyView (fc_timezone f)) (take 8 (fc_list f))) as [_ Hh].
  { eapply Forall_impl; [exact Hw|]. apply hasWeather_hourlyView. }
  set (items := fst (renderUntil (hourlyView (fc_timezone f)) (take 8 (fc_list f)))) in *.
  assert (length items = Nat.min 8 (length (fc_list f))) as Hlen.
  { rewrite <- (length_take (fc_list f) 8), <- (length_fmap Some items), <- Hh.
    now rewrite length_fmap. }
  exists items. split; [apply forecastCallback_hourly|].
  split; [exact Hlen|]. split; [exact Hh|]. split.
  - intros k Hk. rewrite <- (lookup_take_lt (fc_list f) 8 k) by done.
    pose proof (f_equal (fun l => l !! k) Hh) as Hk'. cbn beta in Hk'.
    rewrite !list_lookup_fmap in Hk'.
    destruct (take 8 (fc_list f) !! k) as [e|], (items !! k) as [i|];
      cbn [fmap option_fmap option_map mbind option_bind] in *; congruence.
  - intros k Hk. apply lookup_ge_None. lia.
Qed.

Lemma hourly_list_first_eight_witness :
  Forall hasWeather (take 8 (fc_list sampleForecast)) /\
  exists items : list HourlyItem,
    hourlySection
      (page (exec (forecastCallback 0 (dec 238 (-1)) (dec 904 (-1)) sampleCaptured
                     (RForecast sampleForecast)) initial)) = [items] /\
    length items = Nat.min 8 (length (fc_list sampleForecast)) /\
    hourlyView (fc_timezone sampleForecast) <$> take 8 (fc_list sampleForecast)
      = Some <$> items /\
    (forall k : nat, (k < 8)%nat ->
       items !! k = fc_list sampleForecast !! k ≫= hourlyView (fc_timezone sampleForecast)) /\
    (forall k : nat, (8 <= k)%nat -> items !! k = None).
Proof.
  assert (Forall hasWeather (take 8 (fc_list sampleForecast))) as H.
  { cbn. repeat constructor; discriminate. }
  split; [exact H|].
  exact (hourly_list_first_eight 0 (dec 238 (-1)) (dec 904 (-1)) sampleCaptured
           sampleForecast initial H).
Defined.

(** C4, as amended.  For a forecast list whose entries have the shape the
    data model gives them, the daily list rendered by the forecast callback
    holds the views of the list elements at indices 7, 15, 23, ... below the
    length, in that order, one per 8 elements; when consecutive elements are
    three hours apart, these elements fall on pairwise distinct days. *)
Theorem daily_list_every_eighth (run : nat) (lat lon : decimal) (c : Captured)
    (f : Forecast) (st : State) :
  Forall hasWeather (fc_list f) ->
  returns (forecastCallback run lat lon c (RForecast f)) st = true /\
  exists items : list DailyItem,
    forecastSection (page (exec (forecastCallback run lat lon c (RForecast f)) st)) = [items] /\
    dailyView <$> dailySample (fc_list f) = Some <$> items /\
    (forall k : nat, dailySample (fc_list f) !! k = fc_list f !! (7 + 8 * k)%nat) /\
    length items = (length (fc_list f) / 8)%nat /\
    (threeHourly (fc_list f) -> NoDup (utcDay <$> dailySample (fc_list f))).
Proof.
  intros Hw. destruct (forecastCallback_daily run lat lon c f st Hw) as (Hret & Hsec & Hv).
  split; [unfold returns; now rewrite Hret|].
  eexists. split; [exact Hsec|]. split; [exact Hv|]. split; [|split].
  - intros k. apply sampleFrom_lookup.
  - rewrite <- (length_fmap Some), <- Hv, length_fmap. apply dailySample_length.
  - apply threeHourly_distinct_days.
Qed.

Lemma sampleForecast_threeHourly : threeHourly (fc_list sampleForecast).
Proof.
  intros i e e' He He'.
  do 16 (destruct i as [|i];
         [vm_compute in He, He';
          first [discriminate | injection He as <-; injection He' as <-; reflexivity]|]).
  discriminate.
Defined.

Lemma daily_list_every_eighth_witness :
  Forall hasWeather (fc_list sampleForecast) /\
  threeHourly (fc_list sampleForecast) /\
  NoDup (utcDay <$> dailySample (fc_list sampleForecast)) /\
  exists items : list DailyItem,
    forecastSection
      (page (exec (forecastCallback 0 (dec 238 (-1)) (dec 904 (-1)) sampleCaptured
                     (RForecast sampleForecast)) initial)) = [items] /\
    length items = 2%nat.
Proof.
  assert (Forall hasWeather (fc_list sampleForecast)) as H.
  { cbn. repeat constructor; discriminate. }
  destruct (daily_list_every_eighth 0 (dec 238 (-1)) (dec 904 (-1)) sampleCaptured
              sampleForecast initial H) as (_ & items & Hsec & _ & _ & Hlen & Hdays).
  split; [exact H|]. split; [exact sampleForecast_threeHourly|].
  split; [exact (Hdays sampleForecast_threeHourly)|].
  exists items. split; [exact Hsec|exact Hlen].
Defined.

(** Counterexample to C4 as stated: nothing in the loop looks at dates.  On
    sixteen entries for the same instant the daily list shows the same entry
    twice, and the two sampled elements are on the same day. *)
Lemma daily_list_same_day_twice :
  Forall hasWeather (fc_list sameInstant) /\
  (exists item : DailyItem,
     forecastSection
       (page (exec (forecastCallback 0 (dec 238 (-1)) (dec 904 (-1)) sampleCaptured
                      (RForecast sameInstant)) initial)) = [[item; item]]) /\
  ~ NoDup (utcDay <$> dailySample (fc_list sameInstant)).
Proof.
  split; [|split].
  - cbn. repeat constructor; discriminate.
  - eexists. vm_compute. reflexivity.
  - intros H. vm_compute in H. inversion H as [|? ? Hin _]. apply Hin. left.
Qed.

(** ** The icon rule *)

Lemma iconFor_rule (w : WeatherDesc) : followsIconRule w (iconPath (iconFor w)).
Proof. unfold followsIconRule, iconFor. case_decide; split; congruence. Qed.

(** The current-weather callback in one equation. *)
Lemma currentWeatherCallback_renders (run : nat) (lat lon : decimal)
    (cw : CurrentWeather) (st : State) :
  currentWeatherCallback run lat lon (RCurrentWeather cw) st =
    match nowView cw with
    | None => (Throw, st)
    | Some card =>
        let id := length (cards (page st)) in
        let st1 := set_page (set_cards (cards (page st) ++ [card]) (page st)) st in
        let st2 :=
          set_loop (issue {| req_url := url_reverseGeo lat lon; req_cb := onReverseGeo id |}
                      (loop st1)) st1 in
        let st3 :=
          set_page (set_currentWeatherSection (currentWeatherSection (page st2) ++ [id])
                      (page st2)) st2 in
        (Normal tt,
         set_loop (issue {| req_url := url_forecast lat lon;
                            req_cb := onForecast run lat lon (capture cw) |}
                     (loop st3)) st3)
    end.
Proof.
  unfold currentWeatherCallback, nowView.
  destruct (cw_weather cw) as [|w ws]; [reflexivity|].
  eff_unfold. unfold createCard. eff_unfold. rewrite inline_icon. reflexivity.
Qed.

(** A loop reaches, and renders, the element at index [k] when the
    elements before it have a view. *)
Lemma renderUntil_reach {A B} (f : A -> option B) (l : list A) :
  forall (k : nat) (x : A) (y : B),
    Forall (fun z => is_Some (f z)) (take k l) ->
    l !! k = Some x -> f x = Some y ->
    fst (renderUntil f l) !! k = Some y.
Proof.
  induction l as [|z l IH]; intros [|k] x y Hok Hk Hy; try done.
  - cbn in Hk. injection Hk as ->. cbn. now rewrite Hy.
  - cbn [take] in Hok. apply Forall_cons in Hok as [[v Hv] Hok].
    cbn. rewrite Hv. cbn. eapply IH; eauto.
Qed.

(** Once the hourly loop is through, the daily list holds what the daily
    loop rendered, whether that loop then ends normally or with an
    exception. *)
Lemma forecastCallback_daily_section (run : nat) (lat lon : decimal) (c : Captured)
    (f : Forecast) (st : State) :
  Forall hasWeather (take 8 (fc_list f)) ->
  forecastSection (page (exec (forecastCallback run lat lon c (RForecast f)) st)) =
    [fst (renderUntil dailyView (dailySample (fc_list f)))].
Proof.
  intros Hw.
  destruct (renderUntil_total (hourlyView (fc_timezone f)) (take 8 (fc_list f))) as [Hh _].
  { eapply Forall_impl; [exact Hw|]. apply hasWeather_hourlyView. }
  unfold exec. rewrite forecastCallback_renders, Hh.
  destruct (snd (renderUntil dailyView _)); reflexivity.
Qed.

(** C2.  Every weather entry is rendered with the icon of the rule, and
    every rendered entry has it.  The current-weather callback puts a "Now"
    card on the page whose image source follows the icon rule for the first
    weather element of the response.  The forecast callback renders the
    entry at an index [k] below 8 as the [k]-th item of the hourly list, and
    the entry at index [7 + 8k] as the [k]-th item of the daily list, as
    soon as the loop gets there (the entries it renders before are well
    formed), each with the image source of the rule and the description as
    its title; and every item of the two lists, also an item rendered before
    a later entry makes the loop throw, has the image source of the rule for
    the entry at its index. *)
Theorem rendered_icons_follow_rule :
  (forall run lat lon cw w ws st,
     cw_weather cw = w :: ws ->
     exists (id : nat) (card : NowCard),
       let st' := exec (currentWeatherCallback run lat lon (RCurrentWeather cw)) st in
       currentWeatherSection (page st') = currentWeatherSection (page st) ++ [id] /\
       cards (page st') !! id = Some card /\
       followsIconRule w (now_img_src card)) /\
  (forall run lat lon c f st (k : nat) e w,
     (k < 8)%nat ->
     Forall hasWeather (take k (fc_list f)) ->
     fc_list f !! k = Some e ->
     head (fe_weather e) = Some w ->
     exists items item,
       hourlySection (page (exec (forecastCallback run lat lon c (RForecast f)) st))
         = [items] /\
       items !! k = Some item /\
       hr_img_title item = description w /\
       followsIconRule w (hr_img_src item)) /\
  (forall run lat lon c f st items (k : nat) item,
     hourlySection (page (exec (forecastCallback run lat lon c (RForecast f)) st)) = [items] ->
     items !! k = Some item ->
     exists e w,
       fc_list f !! k = Some e /\ head (fe_weather e) = Some w /\
       followsIconRule w (hr_img_src item)) /\
  (forall run lat lon c f st (k : nat) e w,
     Forall hasWeather (take 8 (fc_list f)) ->
     Forall hasWeather (take k (dailySample (fc_list f))) ->
     fc_list f !! (7 + 8 * k)%nat = Some e ->
     head (fe_weather e) = Some w ->
     exists items item,
       forecastSection (page (exec (forecastCallback run lat lon c (RForecast f)) st))
         = [items] /\
       items !! k = Some item /\
       dy_img_title item = description w /\
       followsIconRule w (dy_img_src item)) /\
  (forall run lat lon c f st items (k : nat) item,
     Forall hasWeather (take 8 (fc_list f)) ->
     forecastSection (page (exec (forecastCallback run lat lon c (RForecast f)) st)) = [items] ->
     items !! k = Some item ->
     exists e w,
       fc_list f !! (7 + 8 * k)%nat = Some e /\ head (fe_weather e) = Some w /\
       followsIconRule w (dy_img_src item)).
Proof.
  split; [|split; [|split; [|split]]].
  - intros run lat lon cw w ws st Hw.
    exists (length (cards (page st))). eexists. cbv zeta. unfold exec.
    rewrite currentWeatherCallback_renders. unfold nowView. rewrite Hw.
    cbn [head mbind option_bind snd page set_page set_loop currentWeatherSection
           set_currentWeatherSection cards set_cards].
    split; [reflexivity|]. split.
    + rewrite lookup_app_r by lia. rewrite Nat.sub_diag. reflexivity.
    + apply iconFor_rule.
  - intros run lat lon c f st k e w Hk Hok He Hw.
    destruct (fe_weather e) as [|w' ws] eqn:Ew; [done|]. injection Hw as ->.
    eexists. eexists. split; [apply forecastCallback_hourly|]. split.
    + eapply renderUntil_reach.
      * rewrite take_take, Nat.min_l by lia.
        eapply Forall_impl; [exact Hok|]. apply hasWeather_hourlyView.
      * rewrite lookup_take_lt by done. exact He.
      * rewrite hourlyView_cases, Ew. reflexivity.
    + split; [reflexivity|apply iconFor_rule].
  - intros run lat lon c f st items k item Hsec Hk.
    rewrite forecastCallback_hourly in Hsec. injection Hsec as <-.
    apply renderUntil_lookup in Hk as (e & He & Hv).
    rewrite hourlyView_cases in Hv.
    destruct (fe_weather e) as [|w ws] eqn:Hw; [done|]. injection Hv as <-.
    exists e, w. split; [|split].
    + apply lookup_take_Some in He. tauto.
    + now rewrite Hw.
    + apply iconFor_rule.
  - intros run lat lon c f st k e w Hh Hok He Hw.
    destruct (fe_weather e) as [|w' ws] eqn:Ew; [done|]. injection Hw as ->.
    eexists. eexists. split; [now apply forecastCallback_daily_section|]. split.
    + eapply renderUntil_reach.
      * eapply Forall_impl; [exact Hok|]. apply hasWeather_dailyView.
      * unfold dailySample. rewrite sampleFrom_lookup. exact He.
      * rewrite dailyView_cases, Ew. reflexivity.
    + split; [reflexivity|apply iconFor_rule].
  - intros run lat lon c f st items k item Hh Hsec Hk.
    rewrite forecastCallback_daily_section in Hsec by exact Hh. injection Hsec as <-.
    apply renderUntil_lookup in Hk as (e & He & Hv).
    rewrite dailyView_cases in Hv.
    destruct (fe_weather e) as [|w ws] eqn:Hw; [done|]. injection Hv as <-.
    exists e, w. split; [|split].
    + unfold dailySample in He. now rewrite sampleFrom_lookup in He.
    + now rewrite Hw.
    + apply iconFor_rule.
Qed.

(** The example of the specification, in each of the three places:
    description "broken clouds" with icon "01d" renders "04.0d", in the "Now"
    card, at index 2 of the hourly list and as the second daily item (index
    15); "clear sky" with icon "01d" renders "01d", also in the daily item
    that is on the page when the entry at index 15 makes the daily loop
    throw. *)
Lemma rendered_icons_follow_rule_witness :
  (cw_weather sampleCurrent = [brokenClouds] /\
   exists (id : nat) (card : NowCard),
     currentWeatherSection
       (page (exec (currentWeatherCallback 0 (dec 238 (-1)) (dec 904 (-1))
                      (RCurrentWeather sampleCurrent)) initial)) = [id] /\
     cards
       (page (exec (currentWeatherCallback 0 (dec 238 (-1)) (dec 904 (-1))
                      (RCurrentWeather sampleCurrent)) initial)) !! id = Some card /\
     now_img_src card = iconPath "04.0d") /\
  (fc_list cloudyForecast !! 2%nat
     = Some (entryAt brokenClouds (1700028000, "2023-11-15 06:00:00")) /\
   exists items item,
     hourlySection
       (page (exec (forecastCallback 0 (dec 238 (-1)) (dec 904 (-1)) sampleCaptured
                      (RForecast cloudyForecast)) initial)) = [items] /\
     items !! 2%nat = Some item /\
     hr_img_title item = "broken clouds" /\
     hr_img_src item = iconPath "04.0d") /\
  (exists e w,
     fc_list cloudyForecast !! 0%nat = Some e /\ head (fe_weather e) = Some w /\
     description w = "clear sky" /\
     followsIconRule w (iconPath "01d")) /\
  (fc_list cloudyForecast !! 15%nat
     = Some (entryAt brokenClouds (1700168400, "2023-11-16 21:00:00")) /\
   exists items item,
     forecastSection
       (page (exec (forecastCallback 0 (dec 238 (-1)) (dec 904 (-1)) sampleCaptured
                      (RForecast cloudyForecast)) initial)) = [items] /\
     items !! 1%nat = Some item /\
     dy_img_title item = "broken clouds" /\
     dy_img_src item = iconPath "04.0d") /\
  (returns (forecastCallback 0 (dec 238 (-1)) (dec 904 (-1)) sampleCaptured
              (RForecast badDailyForecast)) initial = false /\
   exists e w,
     fc_list badDailyForecast !! 7%nat = Some e /\ head (fe_weather e) = Some w /\
     description w = "clear sky" /\
     followsIconRule w (iconPath "01d")).
Proof.
  split; [|split; [|split; [|split]]].
  - split; [reflexivity|].
    destruct (proj1 rendered_icons_follow_rule 0%nat (dec 238 (-1)) (dec 904 (-1))
                sampleCurrent brokenClouds [] initial eq_refl)
      as (id & card & Hs & Hc & Hbc & _).
    exists id, card. split; [exact Hs|]. split; [exact Hc|]. apply Hbc. reflexivity.
  - split; [reflexivity|].
    destruct (proj1 (proj2 rendered_icons_follow_rule) 0%nat (dec 238 (-1)) (dec 904 (-1))
                sampleCaptured cloudyForecast initial 2%nat
                (entryAt brokenClouds (1700028000, "2023-11-15 06:00:00")) brokenClouds)
      as (items & item & Hs & Hi & Ht & Hbc & _).
    + lia.
    + cbn. repeat constructor; discriminate.
    + reflexivity.
    + reflexivity.
    + exists items, item. split; [exact Hs|]. split; [exact Hi|]. split; [exact Ht|].
      apply Hbc. reflexivity.
  - unshelve epose proof
      (proj1 (proj2 (proj2 rendered_icons_follow_rule)) 0%nat (dec 238 (-1)) (dec 904 (-1))
         sampleCaptured cloudyForecast initial _ 0%nat _ _ _) as (e & w & He & Hw & Hr);
      [shelve | shelve | vm_compute; reflexivity | vm_compute; reflexivity |].
    exists e, w. split; [exact He|]. split; [exact Hw|]. split; [|exact Hr].
    vm_compute in He. injection He as <-. vm_compute in Hw. injection Hw as <-. reflexivity.
  - split; [reflexivity|].
    destruct (proj1 (proj2 (proj2 (proj2 rendered_icons_follow_rule))) 0%nat
                (dec 238 (-1)) (dec 904 (-1)) sampleCaptured cloudyForecast initial 1%nat
                (entryAt brokenClouds (1700168400, "2023-11-16 21:00:00")) brokenClouds)
      as (items & item & Hs & Hi & Ht & Hbc & _).
    + cbn. repeat constructor; discriminate.
    + vm_compute. repeat constructor; discriminate.
    + reflexivity.
    + reflexivity.
    + exists items, item. split; [exact Hs|]. split; [exact Hi|]. split; [exact Ht|].
      apply Hbc. reflexivity.
  - split; [vm_compute; reflexivity|].
    unshelve epose proof
      (proj2 (proj2 (proj2 (proj2 rendered_icons_follow_rule))) 0%nat
         (dec 238 (-1)) (dec 904 (-1)) sampleCaptured badDailyForecast initial _ 0%nat _ _ _ _)
      as (e & w & He & Hw & Hr);
      [shelve | shelve | cbn; repeat constructor; discriminate
      | vm_compute; reflexivity | vm_compute; reflexivity |].
    exists e, w. split; [exact He|]. split; [exact Hw|]. split; [|exact Hr].
    vm_compute in He. injection He as <-. vm_compute in Hw. injection Hw as <-. reflexivity.
Defined.

(** ** Entry of [updateWeather], and [error404] *)

Lemma updateWeather_effect (lat lon : decimal) (st : State) :
  updateWeather lat lon st =
    (Normal tt,
     set_loop
       (issue {| req_url := url_currentWeather lat lon;
                 req_cb := onCurrentWeather (nextRun (loop st)) lat lon |}
          (set_nextRun (S (nextRun (loop st))) (loop st)))
       (set_page
          (set_currentLocationDisabled (String.eqb (locationHash st) "#/current-location")
             (set_forecastSection []
                (set_highlightSection []
                   (set_hourlySection []
                      (set_currentWeatherSection []
                         (set_errorDisplay "none"
                            (set_containerFadeIn false
                               (set_containerOverflowY "hidden"
                                  (set_loadingActive true (page st)))))))))) st)).
Proof.
  unfold updateWeather. eff_unfold. cbn [locationHash set_page].
  destruct (String.eqb (locationHash st) "#/current-location"); reflexivity.
Qed.

Lemma error404_effect (st : State) :
  error404 st =
    (Normal tt, set_page (set_loadingActive false (set_errorDisplay "flex" (page st))) st).
Proof. reflexivity. Qed.

(** C7.  A call of [updateWeather] returns with the four regions empty, the
    loading indicator active, and the current-location control disabled
    exactly when the route is the current-location route; the fetch it
    issued is still in flight, and the log gained that one entry and no
    delivery, so no callback has run. *)
Theorem updateWeather_on_entry (lat lon : decimal) (st : State) :
  let st' := exec (updateWeather lat lon) st in
  let q := {| req_url := url_currentWeather lat lon;
              req_cb := onCurrentWeather (nextRun (loop st)) lat lon |} in
  returns (updateWeather lat lon) st = true /\
  currentWeatherSection (page st') = [] /\
  hourlySection (page st') = [] /\
  highlightSection (page st') = [] /\
  forecastSection (page st') = [] /\
  loadingActive (page st') = true /\
  (currentLocationDisabled (page st') = true <-> locationHash st = "#/current-location") /\
  (currentLocationDisabled (page st') = false <-> locationHash st <> "#/current-location") /\
  pending (loop st') = pending (loop st) ++ [q] /\
  log (loop st') = log (loop st) ++ [Issued q].
Proof.
  cbv zeta. unfold returns, exec. rewrite updateWeather_effect. cbn.
  repeat split; try reflexivity;
    destruct (String.eqb_spec (locationHash st) "#/current-location"); congruence.
Qed.

(** C10.  A call of [updateWeather] hides the error panel, whatever was
    shown before, in particular after [error404]. *)
Theorem updateWeather_hides_error (lat lon : decimal) (st : State) :
  errorDisplay (page (exec (updateWeather lat lon) st)) = "none" /\
  errorDisplay (page (exec error404 st)) = "flex" /\
  errorDisplay (page (exec (updateWeather lat lon) (exec error404 st))) = "none".
Proof.
  unfold exec. rewrite !updateWeather_effect, error404_effect. cbn. auto.
Qed.

(** ** Search *)

(** The listener on an empty field. *)
Lemma searchInputListener_empty (st : State) :
  searchFieldValue (search st) = "" ->
  searchInputListener st =
    (Normal tt,
     set_search
       (set_searchFieldSearching false
          (set_searchResultLists [] (set_searchResultActive false (search st)))) st).
Proof.
  intros Hv. unfold searchInputListener. eff_unfold.
  destruct (searchTimeout st); cbn [clearTimeout]; eff_unfold;
    rewrite Hv; cbn; rewrite Hv; reflexivity.
Qed.

(** The listener on a non-empty field arms a timer and disarms none: line
    59 calls [clearTimeout] only when there is nothing to clear. *)
Lemma searchInputListener_arms (st : State) :
  searchFieldValue (search st) <> "" ->
  searchInputListener st =
    (Normal tt,
     set_searchTimeout (Some (nextTimer (loop st)))
       (set_loop
          (set_nextTimer (S (nextTimer (loop st)))
             (set_timers
                (timers (loop st) ++
                   [(nextTimer (loop st), (clock (loop st) + searchTimeoutDuration)%nat)])
                (loop st)))
          (set_search (set_searchFieldSearching true (search st)) st))).
Proof.
  intros Hv. unfold searchInputListener. eff_unfold.
  destruct (String.eqb_spec (searchFieldValue (search st)) "") as [|_]; [done|].
  destruct (searchTimeout st); cbn [clearTimeout]; eff_unfold;
    destruct (String.eqb_spec (searchFieldValue (search st)) "") as [|_]; try done;
    cbn [search set_search searchFieldValue set_searchFieldSearching];
    destruct (String.eqb_spec (searchFieldValue (search st)) "") as [|_]; try done;
    unfold setTimeout; eff_unfold; reflexivity.
Qed.

(** C8.  An input event on an empty search field clears the result panel,
    deactivates it, removes the "searching" class, and leaves the event loop
    as it was: no timer is armed and no fetch is issued. *)
Theorem empty_input_clears_search (st : State) :
  let st' := exec (step (EvInput "")) st in
  returns (step (EvInput "")) st = true /\
  searchResultLists (search st') = [] /\
  searchResultActive (search st') = false /\
  searchFieldSearching (search st') = false /\
  timers (loop st') = timers (loop st) /\
  pending (loop st') = pending (loop st) /\
  log (loop st') = log (loop st) /\
  loop st' = loop st.
Proof.
  cbv zeta. unfold returns, exec, step. eff_unfold.
  rewrite searchInputListener_empty by reflexivity. cbn. repeat split.
Qed.

(** C1, on the code: two keystrokes 100 ms apart, then the delay.  Both
    timers fire, and two geocoding fetches are issued for the final value,
    where the debounce should leave one. *)
Theorem search_fetches_once_per_keystroke :
  geoQueries
    (log (loop (run [EvInput "a"; EvElapse 100; EvInput "ab"; EvElapse 500] initial)))
  = ["ab"; "ab"].
Proof. vm_compute. reflexivity. Qed.

(** ** What each callback and listener touches *)

Lemma issueAll_fields (qs : list Request) :
  forall l : Loop,
    pending (issueAll qs l) = pending l ++ qs /\
    log (issueAll qs l) = log l ++ (Issued <$> qs) /\
    nextRun (issueAll qs l) = nextRun l /\
    timers (issueAll qs l) = timers l /\
    clock (issueAll qs l) = clock l /\
    nextTimer (issueAll qs l) = nextTimer l.
Proof.
  induction qs as [|q qs IH]; intros l.
  - cbn. now rewrite !app_nil_r.
  - change (issueAll (q :: qs) l) with (issueAll qs (issue q l)).
    destruct (IH (issue q l)) as (-> & -> & -> & -> & -> & ->). cbn.
    now rewrite <- !app_assoc.
Qed.

Section Preserves.
Context (R : State -> State -> Prop).
Hypothesis R_refl : forall st, R st st.
Hypothesis R_trans : forall st1 st2 st3, R st1 st2 -> R st2 st3 -> R st1 st3.

Lemma preserves_ret {A} (a : A) : preserves R (mret a).
Proof. intros st. apply R_refl. Qed.

Lemma preserves_throw {A} : preserves R (@throw A).
Proof. intros st. apply R_refl. Qed.

Lemma preserves_gets {A} (f : State -> A) : preserves R (gets f).
Proof. intros st. apply R_refl. Qed.

Lemma preserves_bind {A B} (m : Eff A) (k : A -> Eff B) :
  preserves R m -> (forall a, preserves R (k a)) -> preserves R (m ≫= k).
Proof.
  intros Hm Hk st. specialize (Hm st). unfold mbind, Eff_mbind, Eff_bind.
  destruct (m st) as [[a|] st1]; cbn [snd] in *; [|done].
  eapply R_trans; [exact Hm|apply Hk].
Qed.

Lemma preserves_forOf {A} (xs : list A) (body : A -> Eff unit) :
  (forall x, preserves R (body x)) -> preserves R (forOf xs body).
Proof.
  intros Hbody. induction xs as [|x xs IH]; cbn [forOf].
  - apply preserves_ret.
  - apply preserves_bind; [apply Hbody|intros _; exact IH].
Qed.
End Preserves.

Lemma onlySearch_refl (st : State) : onlySearch st st.
Proof. exists (search st). reflexivity. Qed.

Lemma onlySearch_trans (st1 st2 st3 : State) :
  onlySearch st1 st2 -> onlySearch st2 st3 -> onlySearch st1 st3.
Proof. intros [s ->] [s' ->]. exists s'. reflexivity. Qed.

Lemma modifySearch_onlySearch (f : SearchView -> SearchView) :
  preserves onlySearch (modifySearch f).
Proof. intros st. eexists. reflexivity. Qed.

(** The geocoding callback writes to the search view only. *)
Lemma geoCallback_frame (r : response) (st : State) :
  exists s', exec (geoCallback r) st = set_search s' st.
Proof.
  pose proof onlySearch_refl as Hr. pose proof onlySearch_trans as Ht.
  assert (preserves onlySearch (geoCallback r)) as H.
  { unfold geoCallback.
    repeat (apply (preserves_bind _ Ht); [apply modifySearch_onlySearch|intros _]).
    destruct r; try apply (preserves_throw _ Hr).
    apply (preserves_forOf _ Hr Ht). intros l. unfold appendSearchItem.
    apply (preserves_bind _ Ht); [apply (preserves_gets _ Hr)|]. intros [|ul rest].
    - apply (preserves_throw _ Hr).
    - apply modifySearch_onlySearch. }
  destruct (H st) as [s' Hs']. exists s'. exact Hs'.
Qed.

Lemma reverseGeoCallback_frame (card : nat) (r : response) (st : State) :
  exists cs, exec (reverseGeoCallback card r) st = set_page (set_cards cs (page st)) st.
Proof.
  unfold reverseGeoCallback, exec.
  destruct r as [| | |[|l ls]]; try (exists (cards (page st)); reflexivity).
  eexists. reflexivity.
Qed.

Lemma airPollutionCallback_effect (c : Captured) (timezone : Z) (r : response)
    (st : State) :
  airPollutionCallback c timezone r st = (Throw, st) \/
  exists card,
    airPollutionCallback c timezone r st =
      (Normal tt, set_page (set_highlightSection (highlightSection (page st) ++ [card])
                              (page st)) st).
Proof.
  unfold airPollutionCallback.
  destruct r as [| |[[|e es]]|]; try (left; reflexivity).
  eff_unfold. cbn [ap_list]. eff_unfold.
  destruct (bool_decide (ae_aqi e ∈ aqiText_keys)); [right; eexists; reflexivity|left; reflexivity].
Qed.

(** Time passing fires the due timers: each issues one geocoding fetch for
    the field's current value. *)
Lemma elapse_effect (ms : nat) (st : State) :
  let now := (clock (loop st) + ms)%nat in
  let due := filter (fun t => (snd t <=? now)%nat) (timers (loop st)) in
  let q := {| req_url := url_geo (searchFieldValue (search st)); req_cb := onGeo |} in
  elapse ms st =
    (Normal tt,
     set_loop
       (issueAll (replicate (length due) q)
          (set_timers (filter (fun t => negb (snd t <=? now)%nat) (timers (loop st)))
             (set_clock now (loop st)))) st).
Proof.
  cbv zeta. unfold elapse. eff_unfold. cbn [loop set_loop clock set_clock timers].
  generalize (filter (fun t : nat * nat => (snd t <=? clock (loop st) + ms)%nat)
                (timers (loop st))) as due.
  generalize (set_timers
                (filter (fun t : nat * nat => negb (snd t <=? clock (loop st) + ms)%nat)
                   (timers (loop st)))
                (set_clock (clock (loop st) + ms)%nat (loop st))) as l.
  intros l due. revert l.
  induction due as [|t due IH]; intros l; cbn [forOf length replicate issueAll foldl].
  - reflexivity.
  - eff_unfold. unfold searchTimerCallback. eff_unfold. rewrite fetchData_issue.
    cbn [search set_loop loop]. specialize (IH (issue
      {| req_url := url_geo (searchFieldValue (search st)); req_cb := onGeo |} l)).
    exact IH.
Qed.

Lemma step_input_page (v : string) (st : State) :
  page (exec (step (EvInput v)) st) = page st /\
  pending (loop (exec (step (EvInput v)) st)) = pending (loop st) /\
  log (loop (exec (step (EvInput v)) st)) = log (loop st) /\
  nextRun (loop (exec (step (EvInput v)) st)) = nextRun (loop st) /\
  returns (step (EvInput v)) st = true.
Proof.
  unfold returns, exec, step. eff_unfold.
  destruct (decide (v = "")) as [->|Hv].
  - rewrite searchInputListener_empty by reflexivity. cbn. auto.
  - rewrite searchInputListener_arms by exact Hv. cbn. auto.
Qed.

Lemma invoke_errorDisplay (cb : callback) (r : response) (st : State) :
  errorDisplay (page (exec (invoke cb r) st)) = errorDisplay (page st).
Proof.
  destruct cb as [|run lat lon|card|run lat lon c|run c tz]; cbn [invoke].
  - destruct (geoCallback_frame r st) as [s' ->]. reflexivity.
  - destruct r; try reflexivity. unfold exec. rewrite currentWeatherCallback_renders.
    destruct (nowView cw); reflexivity.
  - destruct (reverseGeoCallback_frame card r st) as [cs ->]. reflexivity.
  - destruct r; try reflexivity. unfold exec. rewrite forecastCallback_renders.
    repeat match goal with |- context [if ?b then _ else _] => destruct b end; reflexivity.
  - unfold exec. destruct (airPollutionCallback_effect c tz r st) as [->|[card ->]];
      reflexivity.
Qed.

Lemma deliver_unfold (i : nat) (r : response) (st : State) :
  deliver i r st =
    match pending (loop st) !! i with
    | None => (Normal tt, st)
    | Some q =>
        invoke (req_cb q) r
          (set_loop (set_log (log (loop st) ++ [Delivered q])
                       (set_pending (delete i (pending (loop st))) (loop st))) st)
    end.
Proof.
  unfold deliver. eff_unfold. destruct (pending (loop st) !! i); reflexivity.
Qed.

(** Only [updateWeather] and [error404] write the error panel's display. *)
Lemma step_errorDisplay (e : event) (st : State) :
  e <> EvError404 ->
  errorDisplay (page (exec (step e) st)) = errorDisplay (page st) \/
  errorDisplay (page (exec (step e) st)) = "none".
Proof.
  intros He. destruct e as [v|ms|i r|i| | |h|lat lon|]; try done.
  - left. now rewrite (proj1 (step_input_page v st)).
  - left. unfold exec, step. rewrite elapse_effect. reflexivity.
  - left. unfold exec, step. rewrite deliver_unfold.
    destruct (pending (loop st) !! i) as [q|]; [|reflexivity].
    fold (exec (invoke (req_cb q) r)
            (set_loop (set_log (log (loop st) ++ [Delivered q])
                         (set_pending (delete i (pending (loop st))) (loop st))) st)).
    now rewrite invoke_errorDisplay.
  - left. reflexivity.
  - left. reflexivity.
  - left. reflexivity.
  - left. reflexivity.
  - right. unfold exec, step. rewrite updateWeather_effect. reflexivity.
Qed.

(** C9.  [error404] shows the error panel and deactivates the loading
    indicator, from any state, and changes nothing else.  It is not part of
    the fetch path: a failed request leaves the page as it is, and no event
    other than the router's call of [error404] turns the panel on. *)
Theorem error404_only_shows_panel (st : State) :
  error404 st =
    (Normal tt, set_page (set_loadingActive false (set_errorDisplay "flex" (page st))) st) /\
  errorDisplay (page (exec error404 st)) = "flex" /\
  loadingActive (page (exec error404 st)) = false /\
  (let p := page st in
   let p' := page (exec error404 st) in
   containerOverflowY p' = containerOverflowY p /\
   containerFadeIn p' = containerFadeIn p /\
   currentLocationDisabled p' = currentLocationDisabled p /\
   cards p' = cards p /\
   currentWeatherSection p' = currentWeatherSection p /\
   hourlySection p' = hourlySection p /\
   highlightSection p' = highlightSection p /\
   forecastSection p' = forecastSection p) /\
  search (exec error404 st) = search st /\
  searchTimeout (exec error404 st) = searchTimeout st /\
  locationHash (exec error404 st) = locationHash st /\
  loop (exec error404 st) = loop st /\
  (forall i : nat, page (exec (step (EvFail i)) st) = page st) /\
  (forall e : event,
     e <> EvError404 ->
     errorDisplay (page (exec (step e) st)) = errorDisplay (page st) \/
     errorDisplay (page (exec (step e) st)) = "none").
Proof.
  split; [apply error404_effect|]. do 2 (split; [reflexivity|]).
  split; [cbv zeta; repeat split|]. do 4 (split; [reflexivity|]).
  split; [reflexivity|]. intros e. apply step_errorDisplay.
Qed.

Lemma error404_only_shows_panel_witness :
  EvFail 0 <> EvError404 /\
  (errorDisplay (page (exec (step (EvFail 0)) initial)) = errorDisplay (page initial) \/
   errorDisplay (page (exec (step (EvFail 0)) initial)) = "none").
Proof.
  split; [discriminate|].
  destruct (error404_only_shows_panel initial) as (_ & _ & _ & _ & _ & _ & _ & _ & _ & H).
  apply H. discriminate.
Defined.

(** ** The order of the three fetches *)

Lemma omap_delete {A B} (f : A -> option B) (l : list A) (i : nat) (x : A) :
  l !! i = Some x ->
  omap f l = omap f (take i l) ++ omap f [x] ++ omap f (drop (S i) l) /\
  omap f (delete i l) = omap f (take i l) ++ omap f (drop (S i) l).
Proof.
  intros H. rewrite delete_take_drop, <- !omap_app. split; [|reflexivity].
  f_equal. symmetry. now apply take_drop_middle.
Qed.

Lemma delete_absent {A} (l : list A) (i : nat) : l !! i = None -> delete i l = l.
Proof.
  intros H%lookup_ge_None. rewrite delete_take_drop.
  rewrite take_ge by lia. rewrite drop_ge by lia. apply app_nil_r.
Qed.

(** Removing a request that is not of the chain changes nothing; removing
    the one that is in flight leaves none. *)
Lemma omap_delete_None {A B} (f : A -> option B) (l : list A) (i : nat) (x : A) :
  l !! i = Some x -> f x = None -> omap f (delete i l) = omap f l.
Proof.
  intros H Hx. destruct (omap_delete f l i x H) as [-> ->]. cbn. now rewrite Hx.
Qed.

Lemma omap_delete_single {A B} (f : A -> option B) (l : list A) (i : nat) (x : A)
    (y s : B) :
  l !! i = Some x -> f x = Some y -> omap f l = [s] ->
  omap f (delete i l) = [] /\ s = y.
Proof.
  intros H Hx Hs. destruct (omap_delete f l i x H) as [E ->]. rewrite E in Hs.
  cbn in Hs. rewrite Hx in Hs. cbn in Hs.
  destruct (omap f (take i l)) as [|a l1]; cbn in Hs.
  - injection Hs as -> Hs. rewrite Hs. done.
  - injection Hs as _ Hs. now destruct l1.
Qed.

Lemma omap_delete_nil {A B} (f : A -> option B) (l : list A) (i : nat) :
  omap f l = [] -> omap f (delete i l) = [].
Proof.
  intros Hl. destruct (l !! i) as [x|] eqn:H.
  - destruct (omap_delete f l i x H) as [E ->]. rewrite E in Hl.
    apply app_eq_nil in Hl as [-> [_ ->]%app_eq_nil]. reflexivity.
  - now rewrite delete_absent.
Qed.

Lemma omap_delete_at_most {A B} (f : A -> option B) (l : list A) (i : nat) :
  omap f (delete i l) = omap f l \/
  exists x y, l !! i = Some x /\ f x = Some y.
Proof.
  destruct (l !! i) as [x|] eqn:H.
  - destruct (f x) as [y|] eqn:Hx; [right; eauto|]. left. eapply omap_delete_None; eauto.
  - left. now rewrite delete_absent.
Qed.

Lemma chainTrace_app (call : nat) (l1 l2 : list LogEntry) :
  chainTrace call (l1 ++ l2) = chainTrace call l1 ++ chainTrace call l2.
Proof. apply omap_app. Qed.

Lemma chainTrace_Issued (call : nat) (qs : list Request) :
  chainTrace call (Issued <$> qs) = Start <$> omap (chainStage call) qs.
Proof.
  induction qs as [|q qs IH]; [reflexivity|].
  cbn. unfold chainTrace in IH. rewrite IH.
  now destruct (chainStage call q).
Qed.

Lemma chainOrder_Finish (n : nat) (s : stage) :
  last (take n chainOrder) = Some (Start s) ->
  take n chainOrder ++ [Finish s] = take (S n) chainOrder /\
  forall s', nextStage s = Some s' ->
             take n chainOrder ++ [Finish s; Start s'] = take (S (S n)) chainOrder.
Proof.
  do 7 (destruct n as [|n];
        [cbn;
         first [discriminate
               | intros [= <-]; split;
                 [reflexivity
                 | intros s' Hs'; cbn in Hs';
                   first [discriminate | injection Hs' as <-; reflexivity]]]|]).
  cbn. discriminate.
Qed.

Lemma chainStage_stageOf (call : nat) (q : Request) (s : stage) :
  chainStage call q = Some s <-> stageOf q = Some (call, s).
Proof.
  unfold chainStage. destruct (stageOf q) as [[r s0]|]; [|done].
  case_decide; split; intros [=]; subst; done.
Qed.

Lemma chainTrace_Delivered (call : nat) (q : Request) :
  chainTrace call [Delivered q] =
    match chainStage call q with Some s => [Finish s] | None => [] end.
Proof. cbn. now destruct (chainStage call q). Qed.

Lemma omap_single {A B} (f : A -> option B) (x : A) :
  omap f [x] = match f x with Some y => [y] | None => [] end.
Proof. reflexivity. Qed.

Lemma loopTrans_chainInv (l l' : Loop) :
  loopTrans l l' -> (forall call, chainInv call l) -> forall call, chainInv call l'.
Proof.
  intros Ht Hinv call. destruct (Hinv call) as ([n Hn] & Hfl & Hfresh).
  unfold chainInv, chainInFlight in *.
  destruct Ht as [qs Hqs Hp Hl Hr|i Hp Hl Hr|i q qs Hq Hsp Hp Hl Hr|q Hq Hp Hl Hr];
    rewrite Hp, Hl, Hr.
  - rewrite omap_app, chainTrace_app, chainTrace_Issued, Hqs. cbn [fmap list_fmap].
    rewrite !app_nil_r. eauto.
  - split; [eauto|]. split.
    + destruct Hfl as [Hfl|(s & Hfl & Hlast)].
      * left. now apply omap_delete_nil.
      * destruct (omap_delete_at_most (chainStage call) (pending l) i)
          as [E|(x & y & Hx & Hy)].
        -- right. exists s. now rewrite E.
        -- left. exact (proj1 (omap_delete_single _ _ _ _ _ _ Hx Hy Hfl)).
    + intros Hle. destruct (Hfresh Hle) as [Htr Hf]. split; [done|].
      now apply omap_delete_nil.
  - rewrite omap_app, chainTrace_app.
    change (Delivered q :: (Issued <$> qs)) with ([Delivered q] ++ (Issued <$> qs)).
    rewrite chainTrace_app, chainTrace_Issued, chainTrace_Delivered.
    destruct (chainStage call q) as [s|] eqn:Hs.
    + assert (omap (chainStage call) (pending l) = [s] /\
              last (chainTrace call (log l)) = Some (Start s) /\
              omap (chainStage call) (delete i (pending l)) = []) as (Hfl1 & Hlast & Hdel).
      { destruct Hfl as [Hfl|(s0 & Hfl & Hlast)].
        - destruct (omap_delete (chainStage call) _ _ _ Hq) as [E _].
          rewrite E, omap_single, Hs in Hfl. now destruct (omap _ (take i _)).
        - destruct (omap_delete_single _ _ _ _ _ _ Hq Hs Hfl) as [Hdel ->]. done. }
      rewrite Hn in Hlast. destruct (chainOrder_Finish n s Hlast) as [H1 H2].
      rewrite Hdel, Hn. cbn [app].
      destruct (Hsp call) as [Hnone|(s1 & s' & Hcb & Hnext & Hsome)].
      * rewrite Hnone. cbn [fmap list_fmap]. rewrite ?app_nil_r, H1.
        split; [eauto|]. split; [now left|].
        intros Hle. destruct (Hfresh Hle) as [_ Hf]. congruence.
      * apply chainStage_stageOf in Hs. unfold stageOf in Hs.
        assert (s1 = s) as -> by congruence.
        rewrite Hsome. cbn [fmap list_fmap app]. rewrite (H2 _ Hnext).
        split; [eauto|]. split.
        -- right. exists s'. split; [done|].
           rewrite <- (H2 _ Hnext).
           change [Finish s; Start s'] with ([Finish s] ++ [Start s']).
           rewrite app_assoc. apply last_snoc.
        -- intros Hle. destruct (Hfresh Hle) as [_ Hf]. congruence.
    + rewrite (omap_delete_None _ _ _ _ Hq Hs). cbn [app].
      destruct (Hsp call) as [Hnone|(s1 & s' & Hcb & Hnext & Hsome)].
      * rewrite Hnone. cbn [fmap list_fmap]. rewrite ?app_nil_r. eauto.
      * assert (chainStage call q = Some s1) by now apply chainStage_stageOf.
        congruence.
  - rewrite omap_app, chainTrace_app. cbn [omap list_omap chainTrace chainMark].
    destruct (decide (call = nextRun l)) as [->|Hne].
    + assert (chainStage (nextRun l) q = Some Current) as -> by now apply chainStage_stageOf.
      destruct (Hfresh (Nat.le_refl _)) as [-> ->]. cbn.
      split; [exists 1%nat; reflexivity|]. split; [right; eauto|]. lia.
    + assert (chainStage call q = None) as ->.
      { destruct (chainStage call q) as [s|] eqn:Hs; [|done].
        apply chainStage_stageOf in Hs. congruence. }
      cbn. rewrite ?app_nil_r. split; [eauto|]. split; [done|].
      intros Hle. apply Hfresh. lia.
Qed.

Lemma spawns_nil (cb : callback) : spawns cb [].
Proof. intros call. now left. Qed.

(** What a callback does to the event loop: it issues the requests [qs]. *)
Lemma invoke_loop (cb : callback) (r : response) (st : State) :
  exists qs : list Request,
    loop (exec (invoke cb r) st) = issueAll qs (loop st) /\ spawns cb qs.
Proof.
  destruct cb as [|call lat lon|card|call lat lon c|call c tz]; cbn [invoke].
  - exists []. destruct (geoCallback_frame r st) as [s' ->]. split; [done|apply spawns_nil].
  - destruct r as [cw| | |]; try (exists []; split; [done|apply spawns_nil]).
    unfold exec. rewrite currentWeatherCallback_renders.
    destruct (nowView cw) as [card|]; [|exists []; split; [done|apply spawns_nil]].
    eexists [_; _]. split; [reflexivity|].
    intros call'. cbn. unfold chainStage, stageOf. cbn.
    case_decide; [subst; right; exists Current, Forecasting; done|now left].
  - exists []. destruct (reverseGeoCallback_frame card r st) as [cs ->].
    split; [done|apply spawns_nil].
  - destruct r as [|f| |]; try (exists []; split; [done|apply spawns_nil]).
    unfold exec. rewrite forecastCallback_renders.
    destruct (snd (renderUntil (hourlyView _) _));
      [|exists []; split; [done|apply spawns_nil]].
    assert (spawns (onForecast call lat lon c)
              [{| req_url := url_airPollution lat lon;
                  req_cb := onAirPollution call c (fc_timezone f) |}]) as Hsp.
    { intros call'. cbn. unfold chainStage, stageOf. cbn.
      case_decide; [subst; right; exists Forecasting, AirQuality; done|now left]. }
    destruct (snd (renderUntil dailyView _)); eexists [_]; (split; [reflexivity|exact Hsp]).
  - exists []. unfold exec.
    destruct (airPollutionCallback_effect c tz r st) as [->|[card ->]];
      (split; [done|apply spawns_nil]).
Qed.

Lemma omap_replicate_None {A B} (f : A -> option B) (n : nat) (x : A) :
  f x = None -> omap f (replicate n x) = [].
Proof. intros H. induction n as [|n IH]; cbn; [done|]. now rewrite H. Qed.

(** Every event is one of the four transitions of the event loop. *)
Lemma step_loopTrans (e : event) (st : State) :
  loopTrans (loop st) (loop (exec (step e) st)).
Proof.
  destruct e as [v|ms|i r|i| | |h|lat lon|];
    try (apply (LT_issue _ _ []); [done|now rewrite app_nil_r..|done]).
  - destruct (step_input_page v st) as (_ & Hp & Hl & Hr & _).
    apply (LT_issue _ _ []); rewrite ?app_nil_r; done.
  - unfold exec, step. rewrite elapse_effect. cbn [snd loop set_loop].
    match goal with |- context [issueAll ?qs ?l] =>
      destruct (issueAll_fields qs l) as (Hp & Hl & Hr & _); apply (LT_issue _ _ qs)
    end; [|done..].
    intros call. now apply omap_replicate_None.
  - unfold exec, step. rewrite deliver_unfold.
    destruct (pending (loop st) !! i) as [q|] eqn:Hq;
      [|apply (LT_issue _ _ []); [done|now rewrite app_nil_r..|done]].
    match goal with |- context [invoke ?cb r ?s] =>
      destruct (invoke_loop cb r s) as (qs & Hloop & Hsp)
    end.
    unfold exec in Hloop. rewrite Hloop.
    match goal with |- context [issueAll ?qs ?l] =>
      destruct (issueAll_fields qs l) as (Hp & Hl & Hr & _)
    end.
    apply (LT_deliver _ _ i q qs); [done|done|exact Hp| |exact Hr].
    rewrite Hl. cbn [loop set_loop log set_log]. now rewrite <- app_assoc.
  - now apply (LT_fail _ _ i).
  - unfold exec, step. rewrite updateWeather_effect.
    apply (LT_start _ _ {| req_url := url_currentWeather lat lon;
                           req_cb := onCurrentWeather (nextRun (loop st)) lat lon |});
      reflexivity.
Qed.

Lemma run_cons (e : event) (es : list event) (st : State) :
  run (e :: es) st = run es (exec (step e) st).
Proof. reflexivity. Qed.

Lemma run_chainInv (es : list event) :
  forall st : State,
    (forall call, chainInv call (loop st)) ->
    forall call, chainInv call (loop (run es st)).
Proof.
  induction es as [|e es IH]; intros st Hinv; [exact Hinv|].
  rewrite run_cons. apply IH. eapply loopTrans_chainInv; [apply step_loopTrans|exact Hinv].
Qed.

(** C5.  From a page with nothing in flight, whatever events follow, the
    history of every [updateWeather] call is an initial part of: current
    issued, current delivered, forecast issued, forecast delivered, air
    quality issued, air quality delivered.  So each fetch of the chain is
    issued only after the one before it was delivered, and at most one of
    them is in flight, namely the one issued last. *)
Theorem chain_fetches_are_sequential (es : list event) (st : State) (call : nat) :
  pending (loop st) = [] ->
  log (loop st) = [] ->
  chainTrace call (log (loop (run es st))) `prefix_of` chainOrder /\
  (chainInFlight call (loop (run es st)) = [] \/
   exists s : stage,
     chainInFlight call (loop (run es st)) = [s] /\
     last (chainTrace call (log (loop (run es st)))) = Some (Start s)).
Proof.
  intros Hp Hl.
  destruct (run_chainInv es st) with (call := call) as ([n Hn] & Hfl & _).
  { intros c. unfold chainInv, chainInFlight. rewrite Hp, Hl. cbn.
    split; [exists 0%nat; reflexivity|]. auto. }
  split; [|exact Hfl]. rewrite Hn. apply prefix_take.
Qed.

Lemma chain_fetches_are_sequential_witness :
  pending (loop initial) = [] /\
  log (loop initial) = [] /\
  chainTrace 0 (log (loop (run sampleSession initial))) = chainOrder /\
  chainTrace 0 (log (loop (run sampleSession initial))) `prefix_of` chainOrder.
Proof.
  split; [reflexivity|]. split; [reflexivity|]. split; [vm_compute; reflexivity|].
  exact (proj1 (chain_fetches_are_sequential sampleSession initial 0 eq_refl eq_refl)).
Defined.

(** ** A complete weather view *)

Lemma viewProgressOf_shape (fl : list stage) (p : Page) :
  viewProgressOf fl p -> fl = [] \/ exists s, fl = [s].
Proof.
  destruct fl as [|s [|s' fl]]; [auto|eauto|]. now destruct s.
Qed.

(** While a view is in progress, the chain request that is delivered is the
    only one in flight. *)
Lemma viewProgress_in_flight (st : State) (i : nat) (q : Request) (s : stage) :
  viewProgress st ->
  pending (loop st) !! i = Some q ->
  anyStage q = Some s ->
  chainPending st = [s] /\ omap anyStage (delete i (pending (loop st))) = [].
Proof.
  unfold viewProgress, chainPending. intros Hv Hq Hs.
  destruct (viewProgressOf_shape _ _ Hv) as [Hnil|[s0 Hone]].
  - destruct (omap_delete anyStage _ _ _ Hq) as [E _].
    rewrite E, omap_single, Hs in Hnil. now destruct (omap _ (take i _)).
  - destruct (omap_delete_single _ _ _ _ _ _ Hq Hs Hone) as [Hdel ->]. done.
Qed.

Lemma deliver_viewProgress (i : nat) (r : response) (st : State) :
  returns (deliver i r) st = true ->
  viewProgress st -> viewProgress (exec (deliver i r) st).
Proof.
  intros Hret Hv. unfold returns, exec in *. rewrite deliver_unfold in *.
  destruct (pending (loop st) !! i) as [q|] eqn:Hq; [|exact Hv].
  destruct q as [u cb]. cbn [req_cb] in *.
  remember (set_loop _ st) as st1 eqn:Hst1.
  assert (page st1 = page st) as Hp1 by now rewrite Hst1.
  assert (pending (loop st1) = delete i (pending (loop st))) as Hq1 by now rewrite Hst1.
  clear Hst1.
  destruct cb as [|call lat lon|card|call lat lon c|call c tz]; cbn [invoke] in *.
  - (* geocoding *)
    destruct (geoCallback_frame r st1) as [s' E]. unfold exec in E. rewrite E.
    unfold viewProgress, chainPending in *. cbn [page loop set_search].
    rewrite Hp1, Hq1. now rewrite (omap_delete_None _ _ _ _ Hq).
  - (* current weather *)
    destruct (viewProgress_in_flight st i _ Current Hv Hq eq_refl) as [Hfl Hdel].
    destruct r as [cw| | |]; try done.
    rewrite currentWeatherCallback_renders in *.
    destruct (nowView cw) as [card|]; [|done].
    unfold viewProgress, chainPending in *. rewrite Hfl in Hv.
    destruct Hv as (Hcw & Hh & Hhl & Hf).
    clear Hret. cbn. rewrite Hq1, !omap_app, Hdel, Hp1, Hcw. cbn. auto.
  - (* place name *)
    destruct (reverseGeoCallback_frame card r st1) as [cs E]. unfold exec in E. rewrite E.
    unfold viewProgress, chainPending in *. cbn [page loop set_page].
    rewrite Hq1, (omap_delete_None _ _ _ _ Hq) by reflexivity. rewrite Hp1.
    destruct (omap anyStage (pending (loop st))) as [|[] [|]]; exact Hv.
  - (* forecast *)
    destruct (viewProgress_in_flight st i _ Forecasting Hv Hq eq_refl) as [Hfl Hdel].
    destruct r as [|f| |]; try done.
    rewrite forecastCallback_renders in *.
    pose proof (renderUntil_length (hourlyView (fc_timezone f)) (take 8 (fc_list f))) as Hlen.
    rewrite length_take in Hlen.
    destruct (snd (renderUntil (hourlyView _) _)); [|done].
    destruct (snd (renderUntil dailyView _)); [|done].
    unfold viewProgress, chainPending in *. rewrite Hfl in Hv.
    destruct Hv as (Hcw & Hh & Hhl & Hf).
    clear Hret. cbn. rewrite Hq1, !omap_app, Hdel, Hp1. cbn.
    split; [done|]. split; [eexists; split; [reflexivity|lia]|]. eauto.
  - (* air pollution *)
    destruct (viewProgress_in_flight st i _ AirQuality Hv Hq eq_refl) as [Hfl Hdel].
    destruct (airPollutionCallback_effect c tz r st1) as [E|[card E]];
      rewrite E in *; [done|].
    unfold viewProgress, chainPending, viewComplete in *. rewrite Hfl in Hv.
    destruct Hv as (Hcw & Hh & Hhl & Hf & Hld).
    clear Hret. cbn. rewrite Hq1, Hdel, Hp1, Hhl. cbn.
    unfold viewComplete. cbn. auto.
Qed.

Lemma step_viewProgress (e : event) (st : State) :
  undisturbed e = true ->
  returns (step e) st = true ->
  viewProgress st -> viewProgress (exec (step e) st).
Proof.
  intros Hu Hret Hv. destruct e as [v|ms|i r|i| | |h|lat lon|]; try done.
  - destruct (step_input_page v st) as (Hp & Hq & _).
    unfold viewProgress, chainPending in *. now rewrite Hp, Hq.
  - unfold viewProgress, chainPending, exec, step in *. rewrite elapse_effect.
    cbn [snd page loop set_loop].
    match goal with |- context [issueAll ?qs ?l] =>
      destruct (issueAll_fields qs l) as (-> & _)
    end.
    rewrite omap_app, omap_replicate_None by reflexivity. now rewrite app_nil_r.
  - now apply deliver_viewProgress.
  - unfold viewProgress, chainPending, viewComplete, exec, step in *.
    rewrite error404_effect. cbn [snd page loop set_page].
    destruct (omap anyStage (pending (loop st))) as [|[] [|]];
      cbn in *; unfold viewComplete in *; cbn in *; intuition auto.
Qed.

Lemma run_viewProgress (es : list event) :
  forall st : State,
    forallb undisturbed es = true ->
    allReturn es st = true ->
    viewProgress st -> viewProgress (run es st).
Proof.
  induction es as [|e es IH]; intros st Hu Hret Hv; [exact Hv|].
  cbn in Hu, Hret. apply andb_prop in Hu as [Hu1 Hu2]. apply andb_prop in Hret as [Hr1 Hr2].
  rewrite run_cons. apply IH; [done|done|]. now apply step_viewProgress.
Qed.

(** C6, as amended.  A call of [updateWeather] made while no chain request
    of an earlier call is in flight, followed by events among which there is
    no further call and no lost response, all of whose callbacks end
    normally: once no chain request is in flight any more, the page holds
    exactly one "Now" card, one hourly list of at most 8 items, one
    highlights card and one daily list, and the loading indicator is
    inactive. *)
Theorem undisturbed_view_completes (lat lon : decimal) (es : list event) (st : State) :
  chainPending st = [] ->
  forallb undisturbed es = true ->
  allReturn es (exec (updateWeather lat lon) st) = true ->
  chainPending (run es (exec (updateWeather lat lon) st)) = [] ->
  viewComplete (page (run es (exec (updateWeather lat lon) st))).
Proof.
  intros H0 Hu Hret Hend.
  assert (viewProgress (exec (updateWeather lat lon) st)) as Hv.
  { unfold viewProgress, chainPending, exec in *. rewrite updateWeather_effect. cbn.
    rewrite omap_app, H0. cbn. auto. }
  pose proof (run_viewProgress es _ Hu Hret Hv) as Hfin.
  unfold viewProgress in Hfin. now rewrite Hend in Hfin.
Qed.

Lemma undisturbed_view_completes_witness :
  chainPending initial = [] /\
  forallb undisturbed sampleResponses = true /\
  allReturn sampleResponses
    (exec (updateWeather (dec 238103 (-4)) (dec 904125 (-4))) initial) = true /\
  chainPending (run sampleSession initial) = [] /\
  viewComplete (page (run sampleSession initial)).
Proof.
  split; [reflexivity|]. split; [reflexivity|]. split; [vm_compute; reflexivity|].
  split; [vm_compute; reflexivity|].
  apply (undisturbed_view_completes (dec 238103 (-4)) (dec 904125 (-4))
           sampleResponses initial);
    vm_compute; reflexivity.
Defined.

(** Counterexample to C6 as stated: nothing cancels a chain when
    [updateWeather] is called again.  With two calls in a row and all eight
    responses delivered, every callback ends normally, nothing is left in
    flight, and the page holds two "Now" cards and two highlights cards. *)
Lemma overlapping_views_duplicate_cards :
  allReturn overlappingSession initial = true /\
  pending (loop (run overlappingSession initial)) = [] /\
  length (currentWeatherSection (page (run overlappingSession initial))) = 2%nat /\
  length (highlightSection (page (run overlappingSession initial))) = 2%nat /\
  ~ viewComplete (page (run overlappingSession initial)).
Proof.
  split; [vm_compute; reflexivity|]. split; [vm_compute; reflexivity|].
  split; [vm_compute; reflexivity|]. split; [vm_compute; reflexivity|].
  intros [H _]. vm_compute in H. discriminate.
Qed.

(** * Further properties *)

(** ** Search: bursts of keystrokes, and the result panel *)

Lemma filter_true_all {A} (f : A -> bool) (l : list A) :
  Forall (fun x => f x = true) l -> filter (fun x => Is_true (f x)) l = l.
Proof.
  induction 1 as [|x l Hx _ IH]; [done|].
  rewrite filter_cons_True by now rewrite Hx. now rewrite IH.
Qed.

Lemma filter_true_none {A} (f : A -> bool) (l : list A) :
  Forall (fun x => f x = true) l -> filter (fun x => Is_true (negb (f x))) l = [].
Proof.
  induction 1 as [|x l Hx _ IH]; [done|].
  rewrite filter_cons_False by now rewrite Hx. exact IH.
Qed.

(** The input event in one equation. *)
Lemma step_input_effect (v : string) (st : State) :
  exec (step (EvInput v)) st =
    if decide (v = "") then
      set_search
        (set_searchFieldSearching false
           (set_searchResultLists []
              (set_searchResultActive false (set_searchFieldValue v (search st))))) st
    else
      set_searchTimeout (Some (nextTimer (loop st)))
        (set_loop
           (set_nextTimer (S (nextTimer (loop st)))
              (set_timers
                 (timers (loop st) ++
                    [(nextTimer (loop st), (clock (loop st) + searchTimeoutDuration)%nat)])
                 (loop st)))
           (set_search
              (set_searchFieldSearching true (set_searchFieldValue v (search st))) st)).
Proof.
  unfold exec, step. eff_unfold. case_decide as Hv.
  - rewrite searchInputListener_empty by (now rewrite Hv). now rewrite Hv.
  - now rewrite searchInputListener_arms by exact Hv.
Qed.

(** A burst of input events, with no time passing in between: one timer is
    armed per non-empty value, all for the same deadline; nothing is issued
    yet. *)
Lemma input_burst (vs : list string) :
  forall st : State,
    let st1 := run (EvInput <$> vs) st in
    clock (loop st1) = clock (loop st) /\
    log (loop st1) = log (loop st) /\
    pending (loop st1) = pending (loop st) /\
    searchFieldValue (search st1) = default (searchFieldValue (search st)) (last vs) /\
    exists ids : list nat,
      length ids = length (filter (fun v => v <> "") vs) /\
      timers (loop st1) =
        timers (loop st) ++
          ((fun id => (id, (clock (loop st) + searchTimeoutDuration)%nat)) <$> ids).
Proof.
  induction vs as [|v vs IH]; intros st; cbv zeta.
  - cbn. repeat split. exists []. now rewrite app_nil_r.
  - rewrite fmap_cons, run_cons.
    destruct (IH (exec (step (EvInput v)) st)) as (Hc & Hl & Hp & Hv & ids & Hn & Ht).
    rewrite Hc, Hl, Hp, Hv, Ht. clear IH Hc Hl Hp Hv Ht.
    rewrite step_input_effect. case_decide as Hv; subst.
    + cbn [loop set_search search searchFieldValue set_searchFieldSearching
             set_searchResultLists set_searchResultActive set_searchFieldValue].
      repeat split.
      * destruct vs as [|x vs]; [reflexivity|]. rewrite last_cons_cons.
        destruct (last (x :: vs)) eqn:E; [reflexivity|]. now apply last_None in E.
      * exists ids. split; [|done]. rewrite Hn. now rewrite filter_cons_False by tauto.
    + rewrite filter_cons_True by done. cbn [length]. rewrite <- Hn.
      cbn. repeat split.
      * destruct vs as [|x vs]; [reflexivity|]. rewrite last_cons_cons.
        destruct (last (x :: vs)) eqn:E; [reflexivity|]. now apply last_None in E.
      * exists (nextTimer (loop st) :: ids). split; [reflexivity|].
        now rewrite <- app_assoc.
Qed.

(** X1.  A burst of keystrokes followed by the delay, from a state with no
    timer armed: one geocoding fetch is issued per keystroke that left the
    field non-empty, each for the value the field has when the delay is over
    (the last one typed), and no timer stays armed. *)
Theorem keystroke_burst_fetches_per_keystroke (vs : list string) (st : State) :
  timers (loop st) = [] ->
  let st1 := run (EvInput <$> vs) st in
  let st2 := exec (step (EvElapse searchTimeoutDuration)) st1 in
  let final := default (searchFieldValue (search st)) (last vs) in
  searchFieldValue (search st2) = final /\
  log (loop st2) =
    log (loop st) ++
      replicate (length (filter (fun v => v <> "") vs))
        (Issued {| req_url := url_geo final; req_cb := onGeo |}) /\
  geoQueries (log (loop st2)) =
    geoQueries (log (loop st)) ++ replicate (length (filter (fun v => v <> "") vs)) final /\
  timers (loop st2) = [].
Proof.
  intros Ht0. cbv zeta.
  destruct (input_burst vs st) as (Hc & Hl & Hp & Hv & ids & Hn & Ht).
  rewrite Ht0 in Ht. cbn [app] in Ht.
  set (st1 := run (EvInput <$> vs) st) in *.
  unfold exec, step. rewrite elapse_effect. cbn [snd search set_loop loop].
  assert (Forall (fun t : nat * nat =>
            (snd t <=? clock (loop st1) + searchTimeoutDuration)%nat = true)
            (timers (loop st1))) as Hdue.
  { rewrite Ht, Hc. apply Forall_fmap, Forall_true. intros id. cbn.
    apply Nat.leb_refl. }
  rewrite (filter_true_all _ _ Hdue), (filter_true_none _ _ Hdue).
  match goal with |- context [issueAll ?qs ?l] =>
    destruct (issueAll_fields qs l) as (_ & -> & _ & -> & _)
  end.
  cbn [log timers set_timers set_clock]. rewrite Ht, length_fmap, Hn, Hl, Hv.
  split; [reflexivity|]. split; [now rewrite fmap_replicate|]. split; [|reflexivity].
  rewrite fmap_replicate. unfold geoQueries. rewrite omap_app. f_equal.
  generalize (length (filter (fun v => v <> "") vs)) as n. intros n.
  induction n as [|n IHn]; [done|]. cbn. now f_equal.
Qed.

Lemma keystroke_burst_fetches_per_keystroke_witness :
  timers (loop initial) = [] /\
  geoQueries
    (log (loop (exec (step (EvElapse searchTimeoutDuration))
                  (run (EvInput <$> ["w"; "wi"; ""; "wie"]) initial)))) =
    ["wie"; "wie"; "wie"].
Proof.
  split; [reflexivity|].
  exact (proj1 (proj2 (proj2
           (keystroke_burst_fetches_per_keystroke ["w"; "wi"; ""; "wie"] initial eq_refl)))).
Defined.

Lemma appendSearchItem_loop (ls : list Location) :
  forall (st : State) (ul : list SearchItem) rest,
    searchResultLists (search st) = ul :: rest ->
    forOf ls (fun l => appendSearchItem (searchItemView l)) st =
      (Normal tt,
       set_search
         (set_searchResultLists ((ul ++ (searchItemView <$> ls)) :: rest) (search st)) st).
Proof.
  induction ls as [|l ls IH]; intros st ul rest Hul.
  - cbn. rewrite app_nil_r, <- Hul. reflexivity.
  - cbn [forOf]. eff_unfold. unfold appendSearchItem at 1. eff_unfold. rewrite Hul.
    eff_unfold. erewrite IH by reflexivity.
    cbn [search set_search searchResultLists set_searchResultLists].
    rewrite <- app_assoc. reflexivity.
Qed.

(** What the geocoding callback leaves, for any response. *)
Lemma geoCallback_effect (r : response) (st : State) :
  geoCallback r st =
    (match r with RLocations _ => Normal tt | _ => Throw end,
     set_search
       (set_searchResultLists
          [match r with RLocations ls => searchItemView <$> ls | _ => [] end]
          (set_searchResultActive true (set_searchFieldSearching false (search st)))) st).
Proof.
  unfold geoCallback. eff_unfold. destruct r as [| | |ls]; try reflexivity.
  change (fun l : Location => appendSearchItem _)
    with (fun l : Location => appendSearchItem (searchItemView l)).
  erewrite appendSearchItem_loop by reflexivity. reflexivity.
Qed.


(** X3.  Geocoding responses are not matched to the query on screen: of two
    responses, the one delivered later decides what the panel shows,
    whatever the earlier one was. *)
Theorem later_geocoding_response_wins (r1 r2 : response) (st : State) :
  exec (geoCallback r2) (exec (geoCallback r1) st) = exec (geoCallback r2) st.
Proof.
  unfold exec. rewrite !geoCallback_effect. reflexivity.
Qed.

(** The weather callbacks leave the search view alone, and the geocoding
    callback leaves its open/closed state alone. *)
Lemma invoke_searchViewActive (cb : callback) (r : response) (st : State) :
  searchViewActive (search (exec (invoke cb r) st)) = searchViewActive (search st).
Proof.
  destruct cb as [|call lat lon|card|call lat lon c|call c tz]; cbn [invoke].
  - unfold exec. rewrite geoCallback_effect. reflexivity.
  - destruct r; try reflexivity. unfold exec. rewrite currentWeatherCallback_renders.
    destruct (nowView cw); reflexivity.
  - destruct (reverseGeoCallback_frame card r st) as [cs ->]. reflexivity.
  - destruct r; try reflexivity. unfold exec. rewrite forecastCallback_renders.
    repeat match goal with |- context [if ?b then _ else _] => destruct b end; reflexivity.
  - unfold exec. destruct (airPollutionCallback_effect c tz r st) as [->|[card ->]];
      reflexivity.
Qed.

Lemma step_searchViewActive (e : event) (st : State) :
  searchViewActive (search (exec (step e) st)) =
    xorb (togglesSearch e) (searchViewActive (search st)).
Proof.
  destruct e as [v|ms|i r|i| | |h|lat lon|]; cbn [togglesSearch xorb].
  - rewrite step_input_effect. case_decide; reflexivity.
  - unfold exec, step. rewrite elapse_effect. reflexivity.
  - unfold exec, step. rewrite deliver_unfold.
    destruct (pending (loop st) !! i) as [q|]; [|reflexivity].
    match goal with |- context [invoke ?cb r ?s] =>
      change (snd (invoke cb r s)) with (exec (invoke cb r) s)
    end.
    now rewrite invoke_searchViewActive.
  - reflexivity.
  - unfold exec, step, toggleSearch. eff_unfold. cbn.
    now destruct (searchViewActive (search st)).
  - unfold exec, step, searchItemClick, toggleSearch. eff_unfold. cbn.
    now destruct (searchViewActive (search st)).
  - reflexivity.
  - unfold exec, step. rewrite updateWeather_effect. reflexivity.
  - reflexivity.
Qed.

(** X4.  [toggleSearch] is the only writer of the search view's "active"
    class, and it flips it: after any sequence of events the view is open
    exactly when it was open before and an even number of toggler and result
    clicks happened, or it was closed and the number is odd.  A click on a
    result while the view is closed opens it. *)
Theorem search_view_follows_click_parity (es : list event) (st : State) :
  searchViewActive (search (run es st)) =
    xorb (Nat.odd (length (filter (fun e => togglesSearch e = true) es)))
      (searchViewActive (search st)).
Proof.
  revert st. induction es as [|e es IH]; intros st.
  - cbn. reflexivity.
  - rewrite run_cons, IH, step_searchViewActive.
    destruct (togglesSearch e) eqn:E.
    + rewrite filter_cons_True by done. cbn [length]. rewrite Nat.odd_succ, <- Nat.negb_odd.
      now destruct (Nat.odd _), (searchViewActive (search st)).
    + rewrite filter_cons_False by (rewrite E; discriminate). reflexivity.
Qed.

(** ** Weather view: malformed and short responses *)

(** A loop that reaches an element without a view has rendered the
    elements before it and ends with an exception. *)
Lemma renderUntil_stop {A B} (f : A -> option B) (l : list A) :
  forall (k : nat) (x : A),
    l !! k = Some x -> f x = None ->
    Forall (fun y => is_Some (f y)) (take k l) ->
    snd (renderUntil f l) = false /\
    f <$> take k l = Some <$> fst (renderUntil f l).
Proof.
  induction l as [|y l IH]; intros k x Hk Hx Hok; [done|].
  destruct k as [|k]; cbn in Hk.
  - injection Hk as ->. cbn. now rewrite Hx.
  - cbn [take] in Hok. apply Forall_cons in Hok as [[z Hz] Hok].
    destruct (IH k x Hk Hx Hok) as [IH1 IH2].
    cbn. rewrite Hz. cbn. split; [done|]. now rewrite IH2.
Qed.

(** X5.  A current-weather response whose [weather] array is empty: the
    callback ends with an exception before it renders or fetches anything.
    The page keeps the state [updateWeather] left, and the only trace of the
    response is its delivery: no reverse-geocoding and no forecast fetch is
    issued, so the view never completes. *)
Theorem current_weather_without_description_stops_view
    (st : State) (i : nat) (q : Request) (call : nat) (lat lon : decimal)
    (cw : CurrentWeather) :
  pending (loop st) !! i = Some q ->
  req_cb q = onCurrentWeather call lat lon ->
  cw_weather cw = [] ->
  let st' := exec (step (EvDeliver i (RCurrentWeather cw))) st in
  returns (step (EvDeliver i (RCurrentWeather cw))) st = false /\
  page st' = page st /\
  search st' = search st /\
  pending (loop st') = delete i (pending (loop st)) /\
  log (loop st') = log (loop st) ++ [Delivered q].
Proof.
  intros Hq Hcb Hw. cbv zeta. unfold returns, exec, step.
  rewrite deliver_unfold, Hq, Hcb. cbn [invoke].
  rewrite currentWeatherCallback_renders. unfold nowView. rewrite Hw. cbn. auto.
Qed.

Lemma current_weather_without_description_stops_view_witness :
  let st := exec (updateWeather (dec 238103 (-4)) (dec 904125 (-4))) initial in
  let cw := {| cw_weather := []; cw_dt := 1700006400; cw_sunrise := 1700029000;
               cw_sunset := 1700061000; cw_temp := dec 2573 (-2);
               cw_feels_like := dec 2610 (-2); cw_pressure := 1012; cw_humidity := 64;
               cw_visibility := 10000; cw_timezone := 21600 |} in
  returns (step (EvDeliver 0 (RCurrentWeather cw))) st = false /\
  loadingActive (page (exec (step (EvDeliver 0 (RCurrentWeather cw))) st)) = true /\
  pending (loop (exec (step (EvDeliver 0 (RCurrentWeather cw))) st)) = [].
Proof.
  cbv zeta.
  destruct (current_weather_without_description_stops_view
              (exec (updateWeather (dec 238103 (-4)) (dec 904125 (-4))) initial) 0
              {| req_url := url_currentWeather (dec 238103 (-4)) (dec 904125 (-4));
                 req_cb := onCurrentWeather 0 (dec 238103 (-4)) (dec 904125 (-4)) |}
              0 (dec 238103 (-4)) (dec 904125 (-4))
              {| cw_weather := []; cw_dt := 1700006400; cw_sunrise := 1700029000;
                 cw_sunset := 1700061000; cw_temp := dec 2573 (-2);
                 cw_feels_like := dec 2610 (-2); cw_pressure := 1012; cw_humidity := 64;
                 cw_visibility := 10000; cw_timezone := 21600 |}
              eq_refl eq_refl eq_refl) as (Hr & Hp & _ & Hq & _).
  split; [exact Hr|]. split; [rewrite Hp; reflexivity|]. rewrite Hq. reflexivity.
Defined.

(** X6.  A forecast response whose entry at index [k] < 8 is the first one
    without a [weather] element: the callback ends with an exception in the
    hourly loop.  The hourly list holds the [k] entries before it; the
    air-pollution fetch is never issued, the daily list and the highlights
    are not touched, and the loading indicator and the container keep the
    state they had. *)
Theorem forecast_bad_hourly_entry_stops_view (call : nat) (lat lon : decimal)
    (c : Captured) (f : Forecast) (st : State) (k : nat) (e : ForecastEntry) :
  (k < 8)%nat ->
  fc_list f !! k = Some e ->
  fe_weather e = [] ->
  Forall hasWeather (take k (fc_list f)) ->
  let st' := exec (forecastCallback call lat lon c (RForecast f)) st in
  returns (forecastCallback call lat lon c (RForecast f)) st = false /\
  (exists items : list HourlyItem,
     hourlySection (page st') = [items] /\
     length items = k /\
     hourlyView (fc_timezone f) <$> take k (fc_list f) = Some <$> items) /\
  loop st' = loop st /\
  forecastSection (page st') = forecastSection (page st) /\
  highlightSection (page st') = highlightSection (page st) /\
  loadingActive (page st') = loadingActive (page st) /\
  containerOverflowY (page st') = containerOverflowY (page st) /\
  containerFadeIn (page st') = containerFadeIn (page st).
Proof.
  intros Hk He Hw Hok. cbv zeta.
  destruct (renderUntil_stop (hourlyView (fc_timezone f)) (take 8 (fc_list f)) k e)
    as [Hstop Hitems].
  { now rewrite lookup_take_lt. }
  { rewrite hourlyView_cases. now rewrite Hw. }
  { rewrite take_take, Nat.min_l by lia.
    eapply Forall_impl; [exact Hok|]. apply hasWeather_hourlyView. }
  rewrite take_take, Nat.min_l in Hitems by lia.
  unfold returns, exec. rewrite forecastCallback_renders, Hstop. cbn.
  split; [done|]. split; [|done].
  eexists. split; [reflexivity|]. split; [|exact Hitems].
  rewrite <- (length_fmap Some), <- Hitems, length_fmap, length_take.
  apply lookup_lt_Some in He. lia.
Qed.

(** X7.  A forecast response whose first eight entries are well formed but
    whose [k]-th sampled entry (index 7 + 8k) is the first one without a
    [weather] element: the callback ends with an exception in the daily
    loop.  The hourly list is complete and the air-pollution fetch has been
    issued, the daily list holds the [k] entries before the bad one, and the
    loading indicator keeps the state it had: it is not hidden. *)
Theorem forecast_bad_daily_entry_keeps_loading (call : nat) (lat lon : decimal)
    (c : Captured) (f : Forecast) (st : State) (k : nat) (e : ForecastEntry) :
  Forall hasWeather (take 8 (fc_list f)) ->
  dailySample (fc_list f) !! k = Some e ->
  fe_weather e = [] ->
  Forall hasWeather (take k (dailySample (fc_list f))) ->
  let st' := exec (forecastCallback call lat lon c (RForecast f)) st in
  returns (forecastCallback call lat lon c (RForecast f)) st = false /\
  (exists items : list HourlyItem,
     hourlySection (page st') = [items] /\
     hourlyView (fc_timezone f) <$> take 8 (fc_list f) = Some <$> items) /\
  (exists items : list DailyItem,
     forecastSection (page st') = [items] /\
     length items = k /\
     dailyView <$> take k (dailySample (fc_list f)) = Some <$> items) /\
  pending (loop st') =
    pending (loop st) ++
      [{| req_url := url_airPollution lat lon;
          req_cb := onAirPollution call c (fc_timezone f) |}] /\
  loadingActive (page st') = loadingActive (page st) /\
  containerFadeIn (page st') = containerFadeIn (page st).
Proof.
  intros Hh He Hw Hok. cbv zeta.
  destruct (renderUntil_total (hourlyView (fc_timezone f)) (take 8 (fc_list f)))
    as [Hh1 Hh2].
  { eapply Forall_impl; [exact Hh|]. apply hasWeather_hourlyView. }
  destruct (renderUntil_stop dailyView (dailySample (fc_list f)) k e He)
    as [Hstop Hitems].
  { rewrite dailyView_cases. now rewrite Hw. }
  { eapply Forall_impl; [exact Hok|]. apply hasWeather_dailyView. }
  assert (length (fst (renderUntil dailyView (dailySample (fc_list f)))) = k) as Hlen.
  { rewrite <- (length_fmap Some), <- Hitems, length_fmap, length_take.
    apply lookup_lt_Some in He. lia. }
  unfold returns, exec. rewrite forecastCallback_renders, Hh1, Hstop. cbn.
  split; [done|]. split; [eauto|]. split; [|done].
  eexists. split; [reflexivity|]. split; [exact Hlen|exact Hitems].
Qed.

(** X8.  A well-formed forecast with fewer than eight entries (none at
    all included): the callback ends normally, the hourly list shows every
    entry, the daily list is there but empty, and the loading indicator is
    hidden. *)
Theorem short_forecast_has_no_daily_entries (call : nat) (lat lon : decimal)
    (c : Captured) (f : Forecast) (st : State) :
  (length (fc_list f) < 8)%nat ->
  Forall hasWeather (fc_list f) ->
  let st' := exec (forecastCallback call lat lon c (RForecast f)) st in
  returns (forecastCallback call lat lon c (RForecast f)) st = true /\
  (exists items : list HourlyItem,
     hourlySection (page st') = [items] /\
     hourlyView (fc_timezone f) <$> fc_list f = Some <$> items) /\
  forecastSection (page st') = [[]] /\
  loadingActive (page st') = false.
Proof.
  intros Hlen Hw. cbv zeta.
  destruct (renderUntil_total (hourlyView (fc_timezone f)) (take 8 (fc_list f)))
    as [Hh1 Hh2].
  { eapply Forall_impl; [apply Forall_take, Hw|]. apply hasWeather_hourlyView. }
  assert (dailySample (fc_list f) = []) as Hd.
  { apply length_zero_iff_nil. rewrite dailySample_length. now apply Nat.div_small. }
  rewrite take_ge in Hh2 by lia.
  unfold returns, exec. rewrite forecastCallback_renders, Hh1, Hd. cbn.
  split; [done|]. split; [|done]. eexists. split; [reflexivity|].
  rewrite take_ge in * by lia. exact Hh2.
Qed.

Lemma forecast_bad_hourly_entry_stops_view_witness :
  let m := forecastCallback 0 (dec 238103 (-4)) (dec 904125 (-4)) sampleCaptured
             (RForecast badHourlyForecast) in
  let st := exec (updateWeather (dec 238103 (-4)) (dec 904125 (-4))) initial in
  returns m st = false /\
  (exists items : list HourlyItem,
     hourlySection (page (exec m st)) = [items] /\ length items = 3%nat) /\
  loop (exec m st) = loop st /\
  loadingActive (page (exec m st)) = true.
Proof.
  cbv zeta.
  destruct (forecast_bad_hourly_entry_stops_view 0 (dec 238103 (-4)) (dec 904125 (-4))
              sampleCaptured badHourlyForecast
              (exec (updateWeather (dec 238103 (-4)) (dec 904125 (-4))) initial)
              3 entryWithoutWeather)
    as (Hr & (items & Hi & Hn & _) & Hl & _ & _ & Hld & _).
  - lia.
  - reflexivity.
  - reflexivity.
  - cbn. repeat constructor; discriminate.
  - split; [exact Hr|]. split; [exists items; split; [exact Hi|exact Hn]|].
    split; [exact Hl|]. rewrite Hld. reflexivity.
Defined.

Lemma forecast_bad_daily_entry_keeps_loading_witness :
  let m := forecastCallback 0 (dec 238103 (-4)) (dec 904125 (-4)) sampleCaptured
             (RForecast badDailyForecast) in
  let st := exec (updateWeather (dec 238103 (-4)) (dec 904125 (-4))) initial in
  returns m st = false /\
  (exists items : list DailyItem,
     forecastSection (page (exec m st)) = [items] /\ length items = 1%nat) /\
  length (pending (loop (exec m st))) = 2%nat /\
  loadingActive (page (exec m st)) = true.
Proof.
  cbv zeta.
  destruct (forecast_bad_daily_entry_keeps_loading 0 (dec 238103 (-4)) (dec 904125 (-4))
              sampleCaptured badDailyForecast
              (exec (updateWeather (dec 238103 (-4)) (dec 904125 (-4))) initial)
              1 entryWithoutWeather)
    as (Hr & _ & (items & Hi & Hn & _) & Hp & Hld & _).
  - cbn. repeat constructor; discriminate.
  - reflexivity.
  - reflexivity.
  - vm_compute. repeat constructor; discriminate.
  - split; [exact Hr|]. split; [exists items; split; [exact Hi|exact Hn]|].
    split; [rewrite Hp; reflexivity|]. rewrite Hld. reflexivity.
Defined.

Lemma short_forecast_has_no_daily_entries_witness :
  let m := forecastCallback 0 (dec 238103 (-4)) (dec 904125 (-4)) sampleCaptured
             (RForecast shortForecast) in
  returns m initial = true /\
  forecastSection (page (exec m initial)) = [[]] /\
  loadingActive (page (exec m initial)) = false.
Proof.
  cbv zeta.
  destruct (short_forecast_has_no_daily_entries 0 (dec 238103 (-4)) (dec 904125 (-4))
              sampleCaptured shortForecast initial)
    as (Hr & _ & Hf & Hld).
  - cbn. lia.
  - cbn. repeat constructor; discriminate.
  - split; [exact Hr|]. split; [exact Hf|exact Hld].
Defined.

(** ** Weather view: what the closures carry, and who writes what *)

(** X9.  The highlights card is put together from three responses.  The
    forecast request issued by the current-weather callback carries the
    values captured from that response, the air-pollution request issued by
    the forecast callback carries them on together with the forecast's city
    timezone, and the card appended by the air-pollution callback shows the
    captured humidity, pressure, feels-like, visibility, sunrise and sunset,
    the two times in the forecast's timezone, not in the timezone of the
    current-weather response. *)
Theorem highlights_card_from_three_responses (call : nat) (lat lon : decimal)
    (cw : CurrentWeather) (f : Forecast) (a : AirPollution) (e : AirEntry)
    (es : list AirEntry) (st : State) :
  cw_weather cw <> [] ->
  Forall hasWeather (take 8 (fc_list f)) ->
  ap_list a = e :: es ->
  ae_aqi e ∈ aqiText_keys ->
  let cb2 := onForecast call lat lon (capture cw) in
  let cb3 := onAirPollution call (capture cw) (fc_timezone f) in
  let st1 := exec (currentWeatherCallback call lat lon (RCurrentWeather cw)) st in
  let st2 := exec (invoke cb2 (RForecast f)) st1 in
  let st3 := exec (invoke cb3 (RAirPollution a)) st2 in
  last (pending (loop st1)) = Some {| req_url := url_forecast lat lon; req_cb := cb2 |} /\
  last (pending (loop st2)) = Some {| req_url := url_airPollution lat lon; req_cb := cb3 |} /\
  highlightSection (page st3) =
    highlightSection (page st) ++ [highlightView (capture cw) (fc_timezone f) e] /\
  hl_sunrise (highlightView (capture cw) (fc_timezone f) e) = (cw_sunrise cw, fc_timezone f) /\
  hl_sunset (highlightView (capture cw) (fc_timezone f) e) = (cw_sunset cw, fc_timezone f).
Proof.
  intros Hw Hh Ha Hq. cbv zeta.
  destruct (renderUntil_total (hourlyView (fc_timezone f)) (take 8 (fc_list f)))
    as [Hh1 _].
  { eapply Forall_impl; [exact Hh|]. apply hasWeather_hourlyView. }
  assert (exists card, nowView cw = Some card) as [card Hcard].
  { unfold nowView. destruct (cw_weather cw); [done|]. cbn. eauto. }
  unfold exec. rewrite currentWeatherCallback_renders, Hcard. cbn [invoke snd].
  rewrite forecastCallback_renders, Hh1.
  split; [cbn; apply last_snoc|].
  assert (forall st0, snd (airPollutionCallback (capture cw) (fc_timezone f)
                             (RAirPollution a) st0)
                      = set_page (set_highlightSection
                                    (highlightSection (page st0) ++
                                       [highlightView (capture cw) (fc_timezone f) e])
                                    (page st0)) st0) as Hair.
  { intros st0. unfold airPollutionCallback. eff_unfold. rewrite Ha. eff_unfold.
    rewrite bool_decide_eq_true_2 by exact Hq. reflexivity. }
  destruct (snd (renderUntil dailyView _)); cbn [snd]; rewrite Hair;
    (split; [cbn; apply last_snoc|]); cbn; auto.
Qed.

Lemma highlights_card_from_three_responses_witness :
  cw_weather sampleCurrent <> [] /\
  highlightSection
    (page (exec (invoke (onAirPollution 0 (capture sampleCurrent) 21600)
                   (RAirPollution sampleAir))
             (exec (invoke (onForecast 0 (dec 238103 (-4)) (dec 904125 (-4))
                              (capture sampleCurrent)) (RForecast sampleForecast))
                (exec (currentWeatherCallback 0 (dec 238103 (-4)) (dec 904125 (-4))
                         (RCurrentWeather sampleCurrent)) initial)))) =
    [highlightView (capture sampleCurrent) 21600
       {| ae_aqi := 2; ae_no2 := dec 77 (-2); ae_o3 := dec 6866 (-2);
          ae_so2 := dec 64 (-2); ae_pm2_5 := dec 5 (-1) |}].
Proof.
  split; [discriminate|].
  refine (proj1 (proj2 (proj2
    (highlights_card_from_three_responses 0 (dec 238103 (-4)) (dec 904125 (-4))
       sampleCurrent sampleForecast sampleAir _ [] initial _ _ eq_refl _)))).
  - discriminate.
  - cbn. repeat constructor; discriminate.
  - vm_compute. repeat constructor.
Defined.

Lemma invoke_loadingActive (cb : callback) (r : response) (st : State) :
  loadingActive (page (exec (invoke cb r) st)) = loadingActive (page st) \/
  (exists call lat lon c f,
     cb = onForecast call lat lon c /\ r = RForecast f /\
     returns (invoke cb r) st = true /\
     loadingActive (page (exec (invoke cb r) st)) = false).
Proof.
  destruct cb as [|call lat lon|card|call lat lon c|call c tz]; cbn [invoke].
  - left. unfold exec. rewrite geoCallback_effect. reflexivity.
  - left. destruct r; try reflexivity. unfold exec. rewrite currentWeatherCallback_renders.
    destruct (nowView cw); reflexivity.
  - left. destruct (reverseGeoCallback_frame card r st) as [cs ->]. reflexivity.
  - destruct r as [|f| |]; try (left; reflexivity).
    unfold exec, returns. rewrite forecastCallback_renders.
    destruct (snd (renderUntil (hourlyView _) _)); [|left; reflexivity].
    destruct (snd (renderUntil dailyView _)); [|left; reflexivity].
    right. exists call, lat, lon, c, f. auto.
  - left. unfold exec. destruct (airPollutionCallback_effect c tz r st) as [->|[card ->]];
      reflexivity.
Qed.

(** X11.  Who writes the loading indicator: [updateWeather] shows it,
    [error404] hides it, and otherwise only a forecast callback that ends
    normally hides it.  Every other event, a current-weather, place-name or
    air-pollution response, a failed request, a forecast callback that
    throws, leaves it as it is, so a view that fails keeps the indicator
    on. *)
Theorem loading_indicator_writers (e : event) (st : State) :
  let st' := exec (step e) st in
  loadingActive (page st') = loadingActive (page st) \/
  (exists lat lon, e = EvUpdateWeather lat lon /\ loadingActive (page st') = true) \/
  (e = EvError404 /\ loadingActive (page st') = false) \/
  (exists i f q call lat lon c,
     e = EvDeliver i (RForecast f) /\
     pending (loop st) !! i = Some q /\
     req_cb q = onForecast call lat lon c /\
     returns (step e) st = true /\
     loadingActive (page st') = false).
Proof.
  cbv zeta. destruct e as [v|ms|i r|i| | |h|lat lon|]; try (left; reflexivity).
  - left. now rewrite (proj1 (step_input_page v st)).
  - left. unfold exec, step. rewrite elapse_effect. reflexivity.
  - unfold exec, returns, step. rewrite deliver_unfold.
    destruct (pending (loop st) !! i) as [q|] eqn:Hq; [|left; reflexivity].
    match goal with |- context [invoke ?cb r ?s] =>
      destruct (invoke_loadingActive cb r s) as [H|(call & lat & lon & c & f & Hcb & -> & Hr & Hl)]
    end.
    + left. exact H.
    + right. right. right. exists i, f, q, call, lat, lon, c. auto.
  - right. left. exists lat, lon. split; [done|].
    unfold exec, step. rewrite updateWeather_effect. reflexivity.
  - right. right. left. split; reflexivity.
Qed.

Lemma step_keeps_requests (e : event) (st : State) :
  (forall i r, e <> EvDeliver i r) -> (forall i, e <> EvFail i) ->
  pending (loop st) `prefix_of` pending (loop (exec (step e) st)).
Proof.
  intros Hd Hf. destruct e as [v|ms|i r|i| | |h|lat lon|];
    try reflexivity;
    try (exfalso; eapply Hd; reflexivity); try (exfalso; eapply Hf; reflexivity).
  - destruct (step_input_page v st) as (_ & -> & _). reflexivity.
  - unfold exec, step. rewrite elapse_effect. cbn [snd loop set_loop].
    match goal with |- context [issueAll ?qs ?l] =>
      destruct (issueAll_fields qs l) as (-> & _)
    end. now apply prefix_app_r.
  - unfold exec, step. rewrite updateWeather_effect. cbn. now apply prefix_app_r.
Qed.

(** X12.  Nothing cancels a request: as long as neither a response nor a
    failure arrives, the requests in flight stay in flight, in their order,
    whatever else happens: further keystrokes, timers firing, clicks, a new
    route, another [updateWeather], [error404]. *)
Theorem requests_are_never_cancelled (es : list event) (st : State) :
  Forall (fun e => match e with EvDeliver _ _ | EvFail _ => False | _ => True end) es ->
  pending (loop st) `prefix_of` pending (loop (run es st)).
Proof.
  revert st. induction es as [|e es IH]; intros st Hes; [reflexivity|].
  apply Forall_cons in Hes as [He Hes]. rewrite run_cons.
  etrans; [|apply IH, Hes].
  apply step_keeps_requests; intros; intros ->; exact He.
Qed.

Lemma requests_are_never_cancelled_witness :
  pending
    (loop (run [EvUpdateWeather (dec 238103 (-4)) (dec 904125 (-4)); EvError404;
                EvUpdateWeather (dec 515 (-1)) (dec 0 0)] initial)) <> [] /\
  pending (loop (exec (updateWeather (dec 238103 (-4)) (dec 904125 (-4))) initial))
    `prefix_of`
  pending
    (loop (run [EvError404; EvUpdateWeather (dec 515 (-1)) (dec 0 0)]
             (exec (updateWeather (dec 238103 (-4)) (dec 904125 (-4))) initial))).
Proof.
  split; [discriminate|].
  apply (requests_are_never_cancelled
           [EvError404; EvUpdateWeather (dec 515 (-1)) (dec 0 0)]).
  repeat constructor.
Defined.

Lemma step_keeps_timers (e : event) (st : State) :
  (forall ms, e <> EvElapse ms) ->
  timers (loop st) `prefix_of` timers (loop (exec (step e) st)).
Proof.
  intros He. destruct e as [v|ms|i r|i| | |h|lat lon|];
    try reflexivity; try (exfalso; eapply He; reflexivity).
  - rewrite step_input_effect. case_decide; [reflexivity|]. cbn. now apply prefix_app_r.
  - unfold exec, step. rewrite deliver_unfold.
    destruct (pending (loop st) !! i) as [q|]; [|reflexivity].
    match goal with |- context [invoke ?cb r ?s] =>
      destruct (invoke_loop cb r s) as (qs & Hloop & _)
    end.
    unfold exec in Hloop. rewrite Hloop.
    match goal with |- context [issueAll ?qs ?l] =>
      destruct (issueAll_fields qs l) as (_ & _ & _ & -> & _)
    end. reflexivity.
  - unfold exec, step. rewrite updateWeather_effect. reflexivity.
Qed.

(** X13.  No listener or callback disarms a search timer: between two
    passages of time every armed timer stays armed, in its place, and input
    events only add to them.  A timer leaves the list only by firing. *)
Theorem search_timers_are_never_disarmed (es : list event) (st : State) :
  Forall (fun e => match e with EvElapse _ => False | _ => True end) es ->
  timers (loop st) `prefix_of` timers (loop (run es st)).
Proof.
  revert st. induction es as [|e es IH]; intros st Hes; [reflexivity|].
  apply Forall_cons in Hes as [He Hes]. rewrite run_cons.
  etrans; [|apply IH, Hes].
  apply step_keeps_timers; intros; intros ->; exact He.
Qed.

Lemma search_timers_are_never_disarmed_witness :
  timers (loop (run [EvInput "d"; EvInput "dh"; EvInput ""; EvInput "dha"] initial)) =
    [(1%nat, 500%nat); (2%nat, 500%nat); (3%nat, 500%nat)] /\
  timers (loop (exec (step (EvInput "d")) initial)) `prefix_of`
    timers (loop (run [EvInput "dh"; EvInput ""; EvInput "dha"]
                    (exec (step (EvInput "d")) initial))).
Proof.
  split; [vm_compute; reflexivity|].
  apply (search_timers_are_never_disarmed [EvInput "dh"; EvInput ""; EvInput "dha"]).
  repeat constructor.
Defined.

(** ** Place names: each card has its own request *)

Lemma reverseGeoCallback_effect (card : nat) (r : response) (st : State) :
  reverseGeoCallback card r st =
    match r with
    | RLocations (l :: _) =>
        (Normal tt,
         set_page (set_cards (alter (withLocation l) card (cards (page st))) (page st)) st)
    | _ => (Throw, st)
    end.
Proof. unfold reverseGeoCallback. destruct r as [| | |[|l ls]]; reflexivity. Qed.

Lemma omap_delete_sublist {A B} (f : A -> option B) (l : list A) (i : nat) :
  omap f (delete i l) `sublist_of` omap f l.
Proof.
  destruct (l !! i) as [x|] eqn:H.
  - destruct (omap_delete f l i x H) as [-> ->].
    apply sublist_app; [reflexivity|]. now apply sublist_inserts_l.
  - now rewrite delete_absent.
Qed.

Lemma labelsOK_sublist (t t' : list nat) (n n' : nat) :
  labelsOK t n -> t' `sublist_of` t -> (n <= n')%nat -> labelsOK t' n'.
Proof.
  intros [Hnd Hlt] Hsub Hn. split.
  - eapply sublist_NoDup; eauto.
  - intros card Hc. eapply elem_of_sublist in Hc; [|exact Hsub].
    specialize (Hlt card Hc). lia.
Qed.

Lemma labelsOK_new (t : list nat) (n : nat) : labelsOK t n -> labelsOK (t ++ [n]) (S n).
Proof.
  intros [Hnd Hlt]. split.
  - apply NoDup_app. split; [done|]. split; [|apply NoDup_singleton].
    intros card Hc ->%list_elem_of_singleton. specialize (Hlt _ Hc). lia.
  - intros card [Hc| ->%list_elem_of_singleton]%elem_of_app; [|lia].
    specialize (Hlt _ Hc). lia.
Qed.

Lemma invoke_labels (cb : callback) (r : response) (st : State) :
  labelsOK (labelTargets st) (length (cards (page st))) ->
  labelsOK (labelTargets (exec (invoke cb r) st))
    (length (cards (page (exec (invoke cb r) st)))).
Proof.
  intros H. unfold labelTargets in *.
  destruct cb as [|call lat lon|card|call lat lon c|call c tz]; cbn [invoke].
  - unfold exec. rewrite geoCallback_effect. exact H.
  - destruct r; try exact H. unfold exec. rewrite currentWeatherCallback_renders.
    destruct (nowView cw) as [card|]; [|exact H].
    cbn. rewrite !omap_app, length_app. cbn. rewrite app_nil_r, Nat.add_1_r.
    now apply labelsOK_new.
  - unfold exec. rewrite reverseGeoCallback_effect.
    destruct r as [| | |[|l ls]]; try exact H. cbn. now rewrite length_alter.
  - destruct r; try exact H. unfold exec. rewrite forecastCallback_renders.
    repeat match goal with |- context [if ?b then _ else _] => destruct b end;
      cbn; rewrite ?omap_app; cbn; rewrite ?app_nil_r; exact H.
  - unfold exec. destruct (airPollutionCallback_effect c tz r st) as [->|[card ->]];
      exact H.
Qed.

Lemma step_labels (e : event) (st : State) :
  labelsOK (labelTargets st) (length (cards (page st))) ->
  labelsOK (labelTargets (exec (step e) st)) (length (cards (page (exec (step e) st)))).
Proof.
  intros H. destruct e as [v|ms|i r|i| | |h|lat lon|]; try exact H.
  - destruct (step_input_page v st) as (Hp & Hq & _).
    unfold labelTargets. now rewrite Hp, Hq.
  - unfold labelTargets, exec, step. rewrite elapse_effect. cbn [snd page loop set_loop].
    match goal with |- context [issueAll ?qs ?l] =>
      destruct (issueAll_fields qs l) as (-> & _)
    end.
    rewrite omap_app, omap_replicate_None by reflexivity. now rewrite app_nil_r.
  - unfold exec, step. rewrite deliver_unfold.
    destruct (pending (loop st) !! i) as [q|]; [|exact H].
    match goal with |- context [invoke ?cb r ?s] =>
      change (snd (invoke cb r s)) with (exec (invoke cb r) s)
    end.
    apply invoke_labels. unfold labelTargets. cbn.
    eapply labelsOK_sublist; [exact H|apply omap_delete_sublist|done].
  - unfold labelTargets, exec, step, fail. eff_unfold. cbn.
    eapply labelsOK_sublist; [exact H|apply omap_delete_sublist|done].
  - unfold labelTargets, exec, step. rewrite updateWeather_effect. cbn.
    rewrite omap_app. cbn. now rewrite app_nil_r.
Qed.

(** X10.  From a page with nothing in flight, whatever events follow: the
    reverse-geocoding requests in flight name pairwise different "Now"
    cards, each of which exists, and delivering the response to one of them
    changes no card but the one it names (and none at all when the list of
    places is empty).  So a late place name of an earlier view never lands
    in the card of the view on screen. *)
Theorem place_name_goes_to_its_own_card (es : list event) (st : State) :
  pending (loop st) = [] ->
  let st' := run es st in
  NoDup (labelTargets st') /\
  (forall card : nat, card ∈ labelTargets st' -> (card < length (cards (page st')))%nat) /\
  (forall (i : nat) (q : Request) (card : nat) (r : response),
     pending (loop st') !! i = Some q ->
     req_cb q = onReverseGeo card ->
     forall j : nat,
       j <> card ->
       cards (page (exec (step (EvDeliver i r)) st')) !! j = cards (page st') !! j).
Proof.
  intros Hp. cbv zeta.
  assert (labelsOK (labelTargets (run es st)) (length (cards (page (run es st)))))
    as [Hnd Hlt].
  { assert (labelsOK (labelTargets st) (length (cards (page st)))) as H0.
    { unfold labelTargets. rewrite Hp. split; [constructor|]. intros c Hc. inversion Hc. }
    clear Hp. revert st H0. induction es as [|e es IH]; intros st H0; [exact H0|].
    rewrite run_cons. apply IH. now apply step_labels. }
  split; [exact Hnd|]. split; [exact Hlt|].
  intros i q card r Hq Hcb j Hj. unfold exec, step.
  rewrite deliver_unfold, Hq, Hcb. cbn [invoke].
  rewrite reverseGeoCallback_effect.
  destruct r as [| | |[|l ls]]; try reflexivity.
  cbn. now rewrite list_lookup_alter_ne.
Qed.

Lemma place_name_goes_to_its_own_card_witness :
  pending (loop initial) = [] /\
  labelTargets
    (run [EvUpdateWeather (dec 238103 (-4)) (dec 904125 (-4));
          EvDeliver 0 (RCurrentWeather sampleCurrent);
          EvUpdateWeather (dec 238103 (-4)) (dec 904125 (-4));
          EvDeliver 2 (RCurrentWeather sampleCurrent)] initial) = [0%nat; 1%nat] /\
  NoDup
    (labelTargets
       (run [EvUpdateWeather (dec 238103 (-4)) (dec 904125 (-4));
             EvDeliver 0 (RCurrentWeather sampleCurrent);
             EvUpdateWeather (dec 238103 (-4)) (dec 904125 (-4));
             EvDeliver 2 (RCurrentWeather sampleCurrent)] initial)).
Proof.
  split; [reflexivity|]. split; [vm_compute; reflexivity|].
  exact (proj1 (place_name_goes_to_its_own_card
                  [EvUpdateWeather (dec 238103 (-4)) (dec 904125 (-4));
                   EvDeliver 0 (RCurrentWeather sampleCurrent);
                   EvUpdateWeather (dec 238103 (-4)) (dec 904125 (-4));
                   EvDeliver 2 (RCurrentWeather sampleCurrent)] initial eq_refl)).
Defined.

(** ** Bottom tab navigation *)

Lemma filter_false_all {A} (f : A -> bool) (l : list A) :
  Forall (fun x => f x = false) l -> filter (fun x => Is_true (negb (f x))) l = l.
Proof.
  induction 1 as [|x l Hx _ IH]; [done|].
  rewrite filter_cons_True by now rewrite Hx. now rewrite IH.
Qed.

Lemma filter_false_none {A} (f : A -> bool) (l : list A) :
  Forall (fun x => f x = false) l -> filter (fun x => Is_true (f x)) l = [].
Proof.
  induction 1 as [|x l Hx _ IH]; [done|].
  rewrite filter_cons_False by now rewrite Hx. exact IH.
Qed.

(** Hiding the tab contents changes no id, so it changes no lookup. *)
Lemma getElementById_hidden (key : string) (els : list Tabs.Element) :
  Tabs.getElementById key
    ((fun e => if Tabs.isTabContent e then Tabs.setDisplay "none" e else e) <$> els)
  = Tabs.getElementById key els.
Proof.
  unfold Tabs.getElementById. destruct (String.eqb key ""); [done|].
  rewrite list_find_fmap.
  rewrite (list_find_ext _ (fun e => Tabs.el_id e = Some key)).
  - now destruct (list_find _ els) as [[i x]|].
  - intros e. cbn. now destruct (Tabs.isTabContent e).
Qed.

Lemma getElementById_lt (key : string) (els : list Tabs.Element) (j : nat) :
  Tabs.getElementById key els = Some j -> (j < length els)%nat.
Proof.
  unfold Tabs.getElementById. destruct (String.eqb key ""); [done|].
  destruct (list_find _ els) as [[i x]|] eqn:E; [|done].
  intros [= <-]. apply list_find_Some in E as (Hi & _). now apply lookup_lt_Some in Hi.
Qed.

(** [switchTab] on an existing button, in one equation. *)
Lemma switchTab_effect (k : nat) (v : Tabs.View) (this : Tabs.TabButton) :
  Tabs.tabButtons v !! k = Some this ->
  Tabs.switchTab k v =
    {| Tabs.tabButtons :=
         alter (Tabs.setActive true) k (Tabs.setActive false <$> Tabs.tabButtons v);
       Tabs.elements :=
         (fun e => if Tabs.isTabContent e then Tabs.setDisplay "none" e else e)
           <$> Tabs.elements v;
       Tabs.slideIn := false;
       Tabs.now := Tabs.now v;
       Tabs.armed :=
         Tabs.armed v ++
           [((Tabs.now v + 10)%nat,
             Tabs.getElementById (default "null" (Tabs.target this)) (Tabs.elements v))] |}.
Proof.
  intros H. unfold Tabs.switchTab. rewrite H. now rewrite getElementById_hidden.
Qed.

(** After a click exactly the clicked button is active. *)
Lemma switchTab_active (k : nat) (v : Tabs.View) :
  (k < length (Tabs.tabButtons v))%nat ->
  forall (j : nat) (b : Tabs.TabButton),
    Tabs.tabButtons (Tabs.switchTab k v) !! j = Some b ->
    (Tabs.active b = true <-> j = k).
Proof.
  intros Hk j b. destruct (lookup_lt_is_Some_2 _ _ Hk) as [this Hthis].
  rewrite (switchTab_effect _ _ _ Hthis). cbn [Tabs.tabButtons].
  rewrite list_lookup_alter, list_lookup_fmap. case_decide as E.
  - subst j. rewrite Hthis. cbn. intros [= <-]. cbn. tauto.
  - rewrite ?list_lookup_fmap.
    destruct (Tabs.tabButtons v !! j) as [b0|]; cbn; [|intros [=]].
    intros [= <-]. cbn. split; [discriminate|congruence].
Qed.

Lemma fire_frame (due : list (nat * option nat)) :
  forall w : Tabs.View,
    Tabs.tabButtons (foldl (fun w a => snd (Tabs.showTarget (snd a) w)) w due)
      = Tabs.tabButtons w /\
    Tabs.now (foldl (fun w a => snd (Tabs.showTarget (snd a) w)) w due)
      = Tabs.now w /\
    Tabs.armed (foldl (fun w a => snd (Tabs.showTarget (snd a) w)) w due)
      = Tabs.armed w /\
    length (Tabs.elements (foldl (fun w a => snd (Tabs.showTarget (snd a) w)) w due))
      = length (Tabs.elements w).
Proof.
  induction due as [|[d [j|]] due IH]; intros w; cbn [foldl].
  - auto.
  - destruct (IH (snd (Tabs.showTarget (snd (d, Some j)) w))) as (H1 & H2 & H3 & H4).
    rewrite H1, H2, H3, H4. cbn. now rewrite length_alter.
  - apply IH.
Qed.

Lemma tabs_step_buttons (e : Tabs.event) (v : Tabs.View) :
  length (Tabs.tabButtons (Tabs.step e v)) = length (Tabs.tabButtons v) /\
  (Tabs.isElapse e = true -> Tabs.tabButtons (Tabs.step e v) = Tabs.tabButtons v).
Proof.
  destruct e as [k|ms]; cbn [Tabs.step Tabs.isElapse].
  - split; [|done]. unfold Tabs.switchTab.
    destruct (Tabs.tabButtons v !! k); [|done]. cbn.
    now rewrite length_alter, length_fmap.
  - unfold Tabs.elapse.
    match goal with |- context [foldl ?f ?w ?due] =>
      destruct (fire_frame due w) as (-> & _)
    end. auto.
Qed.

Lemma tabs_run_cons (e : Tabs.event) (es : list Tabs.event) (v : Tabs.View) :
  Tabs.run (e :: es) v = Tabs.run es (Tabs.step e v).
Proof. reflexivity. Qed.

Lemma tabs_run_app (es1 es2 : list Tabs.event) (v : Tabs.View) :
  Tabs.run (es1 ++ es2) v = Tabs.run es2 (Tabs.run es1 v).
Proof. apply foldl_app. Qed.

Lemma tabs_run_buttons_length (es : list Tabs.event) :
  forall v, length (Tabs.tabButtons (Tabs.run es v)) = length (Tabs.tabButtons v).
Proof.
  induction es as [|e es IH]; intros v; [done|].
  rewrite tabs_run_cons, IH. apply tabs_step_buttons.
Qed.

Lemma tabs_run_elapses (es : list Tabs.event) :
  forall v, forallb Tabs.isElapse es = true ->
            Tabs.tabButtons (Tabs.run es v) = Tabs.tabButtons v.
Proof.
  induction es as [|e es IH]; intros v H; [done|].
  cbn in H. apply andb_prop in H as [He Hes].
  rewrite tabs_run_cons, IH by done. now apply tabs_step_buttons.
Qed.

(** X14.  After any history of clicks and delays, the active tab button is
    the one clicked last, and no other: whatever happened before the last
    click on an existing button, and however much time passes after it. *)
Theorem last_clicked_tab_is_the_active_one (es1 es2 : list Tabs.event)
    (v : Tabs.View) (k : nat) :
  (k < length (Tabs.tabButtons v))%nat ->
  forallb Tabs.isElapse es2 = true ->
  forall (j : nat) (b : Tabs.TabButton),
    Tabs.tabButtons (Tabs.run (es1 ++ Tabs.Click k :: es2) v) !! j = Some b ->
    (Tabs.active b = true <-> j = k).
Proof.
  intros Hk Hes j b. rewrite tabs_run_app, tabs_run_cons, tabs_run_elapses by done.
  apply switchTab_active. now rewrite tabs_run_buttons_length.
Qed.

Lemma last_clicked_tab_is_the_active_one_witness :
  (2 < length (Tabs.tabButtons Tabs.sampleView))%nat /\
  Tabs.active <$>
    Tabs.tabButtons
      (Tabs.run ([Tabs.Click 1; Tabs.Elapse 3] ++ Tabs.Click 2 :: [Tabs.Elapse 50])
         Tabs.sampleView) = [false; false; true; false] /\
  (forall (j : nat) (b : Tabs.TabButton),
     Tabs.tabButtons
       (Tabs.run ([Tabs.Click 1; Tabs.Elapse 3] ++ Tabs.Click 2 :: [Tabs.Elapse 50])
          Tabs.sampleView) !! j = Some b ->
     (Tabs.active b = true <-> j = 2%nat)).
Proof.
  split; [cbn; lia|]. split; [vm_compute; reflexivity|].
  apply (last_clicked_tab_is_the_active_one [Tabs.Click 1; Tabs.Elapse 3] [Tabs.Elapse 50]
           Tabs.sampleView 2); [cbn; lia|reflexivity].
Defined.

Lemma elapse_all_due (ms : nat) (v : Tabs.View) :
  Forall (fun a => (fst a <= Tabs.now v + ms)%nat) (Tabs.armed v) ->
  Tabs.elapse ms v =
    foldl (fun w a => snd (Tabs.showTarget (snd a) w))
      {| Tabs.tabButtons := Tabs.tabButtons v; Tabs.elements := Tabs.elements v;
         Tabs.slideIn := Tabs.slideIn v; Tabs.now := (Tabs.now v + ms)%nat;
         Tabs.armed := [] |}
      (Tabs.armed v).
Proof.
  intros H. unfold Tabs.elapse. cbv zeta.
  assert (Forall (fun a => (fst a <=? Tabs.now v + ms)%nat = true) (Tabs.armed v)) as Hb.
  { eapply Forall_impl; [exact H|]. intros a Ha. now apply Nat.leb_le. }
  now rewrite (filter_true_all _ _ Hb), (filter_true_none _ _ Hb).
Qed.

Lemma elapse_none_due (ms : nat) (v : Tabs.View) :
  Forall (fun a => (Tabs.now v + ms < fst a)%nat) (Tabs.armed v) ->
  Tabs.elapse ms v =
    {| Tabs.tabButtons := Tabs.tabButtons v; Tabs.elements := Tabs.elements v;
       Tabs.slideIn := Tabs.slideIn v; Tabs.now := (Tabs.now v + ms)%nat;
       Tabs.armed := Tabs.armed v |}.
Proof.
  intros H. unfold Tabs.elapse. cbv zeta.
  assert (Forall (fun a => (fst a <=? Tabs.now v + ms)%nat = false) (Tabs.armed v)) as Hb.
  { eapply Forall_impl; [exact H|]. intros a Ha. apply Nat.leb_gt. exact Ha. }
  now rewrite (filter_false_all _ _ Hb), (filter_false_none _ _ Hb).
Qed.

(** What one element looks like after the tab contents were hidden and the
    elements at the indices [js] were then shown. *)
Lemma shown_lookup (js : list nat) (els : list Tabs.Element) (i : nat) (e : Tabs.Element) :
  els !! i = Some e ->
  exists e',
    foldl (fun l j => alter (Tabs.setDisplay "block") j l)
      ((fun e => if Tabs.isTabContent e then Tabs.setDisplay "none" e else e) <$> els) js
      !! i = Some e' /\
    Tabs.el_id e' = Tabs.el_id e /\
    Tabs.isTabContent e' = Tabs.isTabContent e /\
    Tabs.display e' =
      if bool_decide (i ∈ js) then "block"
      else if Tabs.isTabContent e then "none" else Tabs.display e.
Proof.
  intros He. induction js as [|j js IH] using rev_ind.
  - cbn [foldl]. rewrite list_lookup_fmap, He. cbn.
    eexists; split; [reflexivity|]. rewrite bool_decide_eq_false_2 by apply not_elem_of_nil.
    destruct (Tabs.isTabContent e) eqn:T; cbn; auto.
  - destruct IH as (e0 & H0 & Hid & Htc & Hd).
    rewrite foldl_app. cbn [foldl]. rewrite list_lookup_alter.
    destruct (decide (j = i)) as [E|E].
    + subst j. rewrite H0. cbn. eexists; split; [reflexivity|]. cbn.
      rewrite bool_decide_eq_true_2 by (apply elem_of_app; right; apply list_elem_of_singleton; reflexivity).
      auto.
    + exists e0. split; [exact H0|]. split; [exact Hid|]. split; [exact Htc|].
      rewrite Hd. destruct (bool_decide (i ∈ js)) eqn:B.
      * apply bool_decide_eq_true_1 in B.
        now rewrite bool_decide_eq_true_2 by (apply elem_of_app; left; exact B).
      * apply bool_decide_eq_false_1 in B.
        rewrite bool_decide_eq_false_2; [done|].
        rewrite elem_of_app, list_elem_of_singleton. intros [?|?]; [done|congruence].
Qed.

Lemma hidden_twice (els : list Tabs.Element) :
  (fun e => if Tabs.isTabContent e then Tabs.setDisplay "none" e else e) <$>
    ((fun e => if Tabs.isTabContent e then Tabs.setDisplay "none" e else e) <$> els)
  = (fun e => if Tabs.isTabContent e then Tabs.setDisplay "none" e else e) <$> els.
Proof.
  rewrite <- list_fmap_compose. apply list_fmap_ext. intros _ e _. cbn.
  destruct (Tabs.isTabContent e) eqn:T; cbn; now rewrite ?T.
Qed.

(** A click on an idle page and a delay of at least 10 ms: the one timer
    armed by the click has run. *)
Lemma click_then_wait (v : Tabs.View) (k ms : nat) (this : Tabs.TabButton) :
  Tabs.tabButtons v !! k = Some this ->
  Tabs.armed v = [] ->
  (10 <= ms)%nat ->
  Tabs.run [Tabs.Click k; Tabs.Elapse ms] v =
    snd (Tabs.showTarget
           (Tabs.getElementById (default "null" (Tabs.target this)) (Tabs.elements v))
           {| Tabs.tabButtons :=
                alter (Tabs.setActive true) k (Tabs.setActive false <$> Tabs.tabButtons v);
              Tabs.elements :=
                (fun e => if Tabs.isTabContent e then Tabs.setDisplay "none" e else e)
                  <$> Tabs.elements v;
              Tabs.slideIn := false;
              Tabs.now := (Tabs.now v + ms)%nat;
              Tabs.armed := [] |}).
Proof.
  intros Hk Ha Hms. unfold Tabs.run. cbn [foldl Tabs.step].
  rewrite (switchTab_effect _ _ _ Hk), Ha. rewrite elapse_all_due.
  - reflexivity.
  - cbn. repeat constructor. cbn. lia.
Qed.

(** X15.  On a page with no tab timer pending, a click on a tab button
    whose target names an element, followed by at least 10 ms: the target
    element is displayed as a block, every other tab content is hidden,
    elements that are not tab contents keep their display, the container has
    its slide-in class again and no timer is left. *)
Theorem clicked_tab_content_shows_after_delay (v : Tabs.View) (k j ms : nat)
    (this : Tabs.TabButton) :
  Tabs.tabButtons v !! k = Some this ->
  Tabs.armed v = [] ->
  Tabs.getElementById (default "null" (Tabs.target this)) (Tabs.elements v) = Some j ->
  (10 <= ms)%nat ->
  Tabs.slideIn (Tabs.run [Tabs.Click k; Tabs.Elapse ms] v) = true /\
  Tabs.armed (Tabs.run [Tabs.Click k; Tabs.Elapse ms] v) = [] /\
  forall (i : nat) (e : Tabs.Element),
    Tabs.elements v !! i = Some e ->
    exists e',
      Tabs.elements (Tabs.run [Tabs.Click k; Tabs.Elapse ms] v) !! i = Some e' /\
      Tabs.el_id e' = Tabs.el_id e /\
      Tabs.isTabContent e' = Tabs.isTabContent e /\
      Tabs.display e' =
        if bool_decide (i = j) then "block"
        else if Tabs.isTabContent e then "none" else Tabs.display e.
Proof.
  intros Hk Ha Hj Hms. rewrite (click_then_wait _ _ _ _ Hk Ha Hms), Hj. cbn.
  split; [reflexivity|]. split; [reflexivity|].
  intros i e He. destruct (shown_lookup [j] _ _ _ He) as (e' & H1 & H2 & H3 & H4).
  exists e'. split; [exact H1|]. split; [exact H2|]. split; [exact H3|].
  rewrite H4. destruct (decide (i = j)) as [E|E].
  - rewrite !bool_decide_eq_true_2; [done..|]. now apply list_elem_of_singleton.
  - rewrite !bool_decide_eq_false_2; [done..|]. now rewrite list_elem_of_singleton.
Qed.

Lemma clicked_tab_content_shows_after_delay_witness :
  Tabs.display <$> Tabs.elements (Tabs.run [Tabs.Click 1; Tabs.Elapse 10] Tabs.sampleView)
    = ["none"; "block"; "none"] /\
  Tabs.slideIn (Tabs.run [Tabs.Click 1; Tabs.Elapse 10] Tabs.sampleView) = true /\
  Tabs.armed (Tabs.run [Tabs.Click 1; Tabs.Elapse 10] Tabs.sampleView) = [] /\
  forall (i : nat) (e : Tabs.Element),
    Tabs.elements Tabs.sampleView !! i = Some e ->
    exists e',
      Tabs.elements (Tabs.run [Tabs.Click 1; Tabs.Elapse 10] Tabs.sampleView) !! i = Some e' /\
      Tabs.el_id e' = Tabs.el_id e /\
      Tabs.isTabContent e' = Tabs.isTabContent e /\
      Tabs.display e' =
        if bool_decide (i = 1%nat) then "block"
        else if Tabs.isTabContent e then "none" else Tabs.display e.
Proof.
  split; [vm_compute; reflexivity|].
  apply (clicked_tab_content_shows_after_delay Tabs.sampleView 1 1 10
           {| Tabs.target := Some "forecast"; Tabs.active := false |});
    [reflexivity | reflexivity | vm_compute; reflexivity | lia].
Defined.

(** X17.  A click on a tab button whose target names no element (the
    attribute is missing, or no element has that id) hides every tab content
    and shows none: the timer callback throws on the null target before it
    gives the container its slide-in class back, so the class stays off. *)
Theorem tab_without_target_hides_everything (v : Tabs.View) (k ms : nat)
    (this : Tabs.TabButton) :
  Tabs.tabButtons v !! k = Some this ->
  Tabs.armed v = [] ->
  Tabs.getElementById (default "null" (Tabs.target this)) (Tabs.elements v) = None ->
  (10 <= ms)%nat ->
  Tabs.slideIn (Tabs.run [Tabs.Click k; Tabs.Elapse ms] v) = false /\
  Tabs.armed (Tabs.run [Tabs.Click k; Tabs.Elapse ms] v) = [] /\
  forall (i : nat) (e : Tabs.Element),
    Tabs.elements v !! i = Some e ->
    exists e',
      Tabs.elements (Tabs.run [Tabs.Click k; Tabs.Elapse ms] v) !! i = Some e' /\
      Tabs.el_id e' = Tabs.el_id e /\
      Tabs.isTabContent e' = Tabs.isTabContent e /\
      Tabs.display e' = if Tabs.isTabContent e then "none" else Tabs.display e.
Proof.
  intros Hk Ha Hj Hms. rewrite (click_then_wait _ _ _ _ Hk Ha Hms), Hj. cbn.
  split; [reflexivity|]. split; [reflexivity|].
  intros i e He. destruct (shown_lookup [] _ _ _ He) as (e' & H1 & H2 & H3 & H4).
  exists e'. split; [exact H1|]. split; [exact H2|]. split; [exact H3|].
  rewrite H4. now rewrite bool_decide_eq_false_2 by apply not_elem_of_nil.
Qed.

Lemma tab_without_target_hides_everything_witness :
  Tabs.display <$> Tabs.elements (Tabs.run [Tabs.Click 3; Tabs.Elapse 10] Tabs.sampleView)
    = ["none"; "none"; "none"] /\
  Tabs.slideIn (Tabs.run [Tabs.Click 3; Tabs.Elapse 10] Tabs.sampleView) = false /\
  Tabs.armed (Tabs.run [Tabs.Click 3; Tabs.Elapse 10] Tabs.sampleView) = [] /\
  forall (i : nat) (e : Tabs.Element),
    Tabs.elements Tabs.sampleView !! i = Some e ->
    exists e',
      Tabs.elements (Tabs.run [Tabs.Click 3; Tabs.Elapse 10] Tabs.sampleView) !! i = Some e' /\
      Tabs.el_id e' = Tabs.el_id e /\
      Tabs.isTabContent e' = Tabs.isTabContent e /\
      Tabs.display e' = if Tabs.isTabContent e then "none" else Tabs.display e.
Proof.
  split; [vm_compute; reflexivity|].
  apply (tab_without_target_hides_everything Tabs.sampleView 3 10
           {| Tabs.target := None; Tabs.active := false |});
    [reflexivity | reflexivity | vm_compute; reflexivity | lia].
Defined.

(** A click keeps every button's target. *)
Lemma switchTab_target (a b : nat) (v : Tabs.View) (tb : Tabs.TabButton) :
  Tabs.tabButtons v !! b = Some tb ->
  exists tb',
    Tabs.tabButtons (Tabs.switchTab a v) !! b = Some tb' /\
    Tabs.target tb' = Tabs.target tb.
Proof.
  intros Hb. unfold Tabs.switchTab.
  destruct (Tabs.tabButtons v !! a) as [ta|]; [|eauto]. cbn [Tabs.tabButtons].
  rewrite list_lookup_alter. destruct (decide (a = b)) as [->|E];
    rewrite list_lookup_fmap, Hb; cbn; eauto.
Qed.

(** X16.  Timers armed by [switchTab] are never cancelled: when a second
    tab is clicked less than 10 ms after a first one, both timers run, and
    once 10 ms have passed after the second click the targets of both clicks
    are displayed as blocks at the same time (every other tab content is
    hidden). *)
Theorem quick_second_click_shows_both_contents (v : Tabs.View)
    (a b ja jb d ms : nat) (ta tb : Tabs.TabButton) :
  Tabs.tabButtons v !! a = Some ta ->
  Tabs.tabButtons v !! b = Some tb ->
  Tabs.armed v = [] ->
  Tabs.getElementById (default "null" (Tabs.target ta)) (Tabs.elements v) = Some ja ->
  Tabs.getElementById (default "null" (Tabs.target tb)) (Tabs.elements v) = Some jb ->
  (d < 10)%nat ->
  (10 <= ms)%nat ->
  Tabs.armed
    (Tabs.run [Tabs.Click a; Tabs.Elapse d; Tabs.Click b; Tabs.Elapse ms] v) = [] /\
  forall (i : nat) (e : Tabs.Element),
    Tabs.elements v !! i = Some e ->
    exists e',
      Tabs.elements
        (Tabs.run [Tabs.Click a; Tabs.Elapse d; Tabs.Click b; Tabs.Elapse ms] v) !! i
        = Some e' /\
      Tabs.el_id e' = Tabs.el_id e /\
      Tabs.isTabContent e' = Tabs.isTabContent e /\
      Tabs.display e' =
        if bool_decide (i = ja \/ i = jb) then "block"
        else if Tabs.isTabContent e then "none" else Tabs.display e.
Proof.
  intros Ha Hb Harm Hja Hjb Hd Hms.
  destruct (switchTab_target a b v tb Hb) as (tb' & Hb' & Htb').
  unfold Tabs.run. cbn [foldl Tabs.step].
  rewrite (switchTab_effect _ _ _ Ha) in Hb' |- *. rewrite Harm, Hja in *.
  cbn [Tabs.tabButtons app] in Hb'.
  rewrite (elapse_none_due d) by (cbn; repeat constructor; cbn; lia).
  cbn [Tabs.tabButtons Tabs.elements Tabs.slideIn Tabs.now Tabs.armed app].
  rewrite (switchTab_effect _ _ tb') by exact Hb'.
  cbn [Tabs.tabButtons Tabs.elements Tabs.slideIn Tabs.now Tabs.armed app].
  rewrite Htb', getElementById_hidden, Hjb, hidden_twice.
  rewrite (elapse_all_due ms) by (cbn; repeat constructor; cbn; lia).
  cbn. split; [reflexivity|].
  intros i e He. destruct (shown_lookup [ja; jb] _ _ _ He) as (e' & H1 & H2 & H3 & H4).
  exists e'. split; [exact H1|]. split; [exact H2|]. split; [exact H3|].
  rewrite H4. destruct (decide (i = ja \/ i = jb)) as [E|E].
  - rewrite !bool_decide_eq_true_2; [done..|].
    rewrite elem_of_cons, list_elem_of_singleton. exact E.
  - rewrite !bool_decide_eq_false_2; [done..|].
    rewrite elem_of_cons, list_elem_of_singleton. exact E.
Qed.

Lemma quick_second_click_shows_both_contents_witness :
  Tabs.display <$>
    Tabs.elements
      (Tabs.run [Tabs.Click 1; Tabs.Elapse 4; Tabs.Click 2; Tabs.Elapse 10] Tabs.sampleView)
    = ["none"; "block"; "block"] /\
  Tabs.armed
    (Tabs.run [Tabs.Click 1; Tabs.Elapse 4; Tabs.Click 2; Tabs.Elapse 10] Tabs.sampleView)
    = [] /\
  forall (i : nat) (e : Tabs.Element),
    Tabs.elements Tabs.sampleView !! i = Some e ->
    exists e',
      Tabs.elements
        (Tabs.run [Tabs.Click 1; Tabs.Elapse 4; Tabs.Click 2; Tabs.Elapse 10] Tabs.sampleView)
        !! i = Some e' /\
      Tabs.el_id e' = Tabs.el_id e /\
      Tabs.isTabContent e' = Tabs.isTabContent e /\
      Tabs.display e' =
        if bool_decide (i = 1%nat \/ i = 2%nat) then "block"
        else if Tabs.isTabContent e then "none" else Tabs.display e.
Proof.
  split; [vm_compute; reflexivity|].
  apply (quick_second_click_shows_both_contents Tabs.sampleView 1 2 1 2 4 10
           {| Tabs.target := Some "forecast"; Tabs.active := false |}
           {| Tabs.target := Some "about"; Tabs.active := false |});
    [reflexivity | reflexivity | reflexivity | vm_compute; reflexivity
    | vm_compute; reflexivity | lia | lia].
Defined.
